(** * Tuscan wrappers: [compiler_wrapper.c] and [tool_wrapper.c]

    A shallow embedding of the two wrapper templates of the Tuscan build
    infrastructure, and the properties of their specification that can be
    settled on it.

    Both programs are a straight line of system and library calls.  They
    are embedded as computations in a small state-and-exit monad over an
    explicit model of the process environment: the files under the
    temporary directory, the one scratch handle the wrapper holds, and
    the chronological trace of the calls it has issued.  What the
    operating system answers to each call is given by a [world]. *)

From stdpp Require Import base numbers list strings pretty gmap.
From Stdlib Require Import ZArith Lia Ascii.

Local Open Scope Z_scope.

(** ** Machine integers

    [unsigned] and [int] are 32 bits wide.  Values are kept in [Z] and
    the wrap-around is written out. *)

Module Int32.

Definition modulus : Z := 2 ^ 32.
Definition INT_MAX : Z := 2 ^ 31 - 1.
Definition INT_MIN : Z := - 2 ^ 31.

(** The value held by an [unsigned] object. *)
Definition to_unsigned (z : Z) : Z := z mod modulus.

(** The conversion [(int)]: two's complement reinterpretation. *)
Definition to_int (z : Z) : Z :=
  let u := z mod modulus in
  if u <? 2 ^ 31 then u else u - modulus.

(** [abs] from <stdlib.h>.  ISO C leaves the result for the most
    negative value open; the negation is carried out in 32 bits here, as
    the C library of the target does, so that value is mapped to itself. *)
Definition abs (x : Z) : Z :=
  to_int (if x <? 0 then - x else x).

End Int32.

(** ** Strings produced by the C library *)

(** The conversion [%d] of the [printf] family. *)
Definition render_d (x : Z) : string := pretty x.

(** The character written for [\n]. *)
Definition newline : string := String (ascii_of_nat 10) EmptyString.

(** The number of bytes a C string occupies, terminator included. *)
Definition c_sizeof (s : string) : nat := S (String.length s).

(** ** C objects, pointers and arrays *)

(** Where an array of [char] lives: a string literal is immutable, an
    array declared by the program may be written. *)
Inductive storage := ReadOnly | Writable.

Record cobj := CObj { obj_storage : storage; obj_bytes : string }.

Definition string_literal (s : string) : cobj := CObj ReadOnly s.
Definition char_array (s : string) : cobj := CObj Writable s.

(** A value of type [char *]: null, or a pointer to a string. *)
Inductive cptr := NULL | Ptr (s : string).

(** An element of an automatic array of [char *]: never assigned, or
    holding a pointer. *)
Inductive slot := Indeterminate | Stored (p : cptr).

Global Instance cptr_eq_dec : EqDecision cptr.
Proof. solve_decision. Defined.
Global Instance slot_eq_dec : EqDecision slot.
Proof. solve_decision. Defined.

(** [a[i] = p] on an array of [length a] elements.  An index outside the
    array has no defined behaviour: [None]. *)
Definition store (a : list slot) (i : nat) (p : cptr) : option (list slot) :=
  if decide (i < length a)%nat then Some (<[i := Stored p]> a) else None.

(** [argv[i]]: the caller's strings at 0..argc-1, null at argc. *)
Definition argv_read (argv : list string) (i : nat) : cptr :=
  match argv !! i with
  | Some s => Ptr s
  | None => NULL
  end.

(** The loop [for (i = ...; i < argc; i++) new_argv[i] = argv[i];] with
    [n] iterations left to run. *)
Fixpoint copy_args (n : nat) (i : nat) (argv : list string) (a : list slot)
  : option (list slot) :=
  match n with
  | O => Some a
  | S n' => a' ← store a i (argv_read argv i); copy_args n' (S i) argv a'
  end.

(** Lines 54-59 of compiler_wrapper.c and 42-46 of tool_wrapper.c:
    [char *new_argv[argc]; new_argv[0] = toolchain_tool;] and the loop
    from 1 while [i < argc]. *)
Definition build_new_argv (toolchain_tool : string) (argv : list string)
  : option (list slot) :=
  let argc := length argv in
  let new_argv := replicate argc Indeterminate in
  a ← store new_argv 0 (Ptr toolchain_tool);
  copy_args (argc - 1) 1 argv a.

(** What [execv] requires of its second argument: the pointers are
    followed by a null pointer inside the array. *)
Definition null_terminated (a : list slot) : Prop := Stored NULL ∈ a.

(** ** The [printf] family, called with a format and no argument

    [%%] writes one percent sign.  Every other conversion specification
    would consume an argument that was not passed: [None]. *)
Fixpoint format_noargs (fmt : string) : option string :=
  match fmt with
  | EmptyString => Some EmptyString
  | String c rest =>
      if Ascii.eqb c "%"%char then
        match rest with
        | String c' rest' =>
            if Ascii.eqb c' "%"%char then String "%"%char <$> format_noargs rest'
            else None
        | EmptyString => None
        end
      else String c <$> format_noargs rest
  end.




(** ** The process environment *)

(** The calls a wrapper issues, as the operating system sees them. *)
Inductive event :=
  | EvGetrandom (ok : bool)
  | EvCreate (name : string) (exclusive : bool) (ok : bool)
  | EvWrite (name : string) (data : string) (ok : bool)
  | EvClose (name : string) (ok : bool)
  | EvPerror (msg : string)
  | EvExecv (path : string) (args : list slot) (ok : bool).

(** How a process ends: [exit] or a return from [main]; the image is
    replaced by [path] started on [args]; or the program leaves the
    behaviour C defines (in practice a fatal signal). *)
Inductive outcome :=
  | Exited (status : Z)
  | Replaced (path : string) (args : list slot)
  | Fault.

(** What the system answers. *)
Record world := World {
  (** [getrandom]: [None] when it returns -1, otherwise the first word
      of the filled buffer. *)
  w_getrandom : option Z;
  (** Whether a file of this name may be created or opened for writing. *)
  w_open : string -> bool;
  (** Whether writing the record succeeds. *)
  w_write : bool;
  (** Whether closing the scratch handle succeeds. *)
  w_close : bool;
  (** Whether the image replacement succeeds. *)
  w_execv : bool;
  (** The suffixes [mkstemp] draws, one per attempt. *)
  w_suffixes : list string
}.

(** The open scratch handle: the file it refers to and the bytes a
    buffered stream still holds back. *)
Record handle := Handle { h_name : string; h_pending : string }.

Record state := State {
  st_fs : gmap string string;
  st_handle : option handle;
  st_trace : list event
}.

Definition initial (fs : gmap string string) : state := State fs None [].

(** ** The monad: state, and early termination of the process *)

Inductive result (A : Type) :=
  | Continue (a : A) (s : state)
  | Stop (o : outcome) (s : state).
Arguments Continue {A} a s.
Arguments Stop {A} o s.

Definition M (A : Type) : Type := state -> result A.

Global Instance M_ret : MRet M := λ A a s, Continue a s.
Global Instance M_bind : MBind M := λ A B f m s,
  match m s with
  | Continue a s' => f a s'
  | Stop o s' => Stop o s'
  end.

Definition get_state : M state := λ s, Continue s s.
Definition emit (e : event) : M unit :=
  λ s, Continue () (State (st_fs s) (st_handle s) (st_trace s ++ [e])).
Definition set_file (name data : string) : M unit :=
  λ s, Continue () (State (<[name := data]> (st_fs s)) (st_handle s) (st_trace s)).
Definition set_handle (h : option handle) : M unit :=
  λ s, Continue () (State (st_fs s) h (st_trace s)).
Definition stop {A} (o : outcome) : M A := λ s, Stop o s.

(** [exit(status)]. *)
Definition exit {A} (status : Z) : M A := stop (Exited status).

(** A step whose behaviour C does not define. *)
Definition undefined {A} : M A := stop Fault.

Definition defined {A} (o : option A) : M A :=
  match o with
  | Some a => mret a
  | None => undefined
  end.

(** The content of a file, empty when it does not exist yet. *)
Definition content (fs : gmap string string) (name : string) : string :=
  default "" (fs !! name).

Definition EOF : Z := -1.
Definition scratch_fd : Z := 3.

(** ** The calls of the C library and the system *)

Section Process.

Variable w : world.

(** [syscall(SYS_getrandom, buf, n, 0)]: the return value and, when
    the buffer was filled, the [unsigned] at [buf[0]]. *)
Definition getrandom (n : Z) : M (Z * option Z) :=
  match w_getrandom w with
  | Some r => emit (EvGetrandom true);; mret (n, Some (Int32.to_unsigned r))
  | None => emit (EvGetrandom false);; mret (-1, None)
  end.

(** [perror(msg)]: the message and the system error, on standard error. *)
Definition perror (msg : string) : M unit := emit (EvPerror msg).

(** [sprintf] into a buffer of [size] bytes.  Writing past the buffer
    has no defined behaviour. *)
Definition sprintf (size : nat) (s : string) : M string :=
  if decide (c_sizeof s <= size)%nat then mret s else undefined.

(** [fopen(name, "w")]: the file is created, or truncated when it is
    there already; the stream starts with nothing buffered.  The
    stream is named after its file; [None] is the null pointer.  A name
    stands for the file that is reached through it: the map of files
    does not tell a symbolic link from its target, so nothing is said
    here about the other names of a file. *)
Definition fopen_w (name : string) : M (option string) :=
  if w_open w name then
    set_file name "";;
    set_handle (Some (Handle name ""));;
    emit (EvCreate name false true);;
    mret (Some name)
  else
    emit (EvCreate name false false);; mret None.

(** [fprintf(fp, fmt)] with no further argument: the formatted bytes
    are buffered in the stream. *)
Definition fprintf (fp : string) (fmt : string) : M Z :=
  data ← defined (format_noargs fmt);
  s ← get_state;
  match st_handle s with
  | Some h =>
      if w_write w then
        set_handle (Some (Handle (h_name h) (h_pending h +:+ data)));;
        emit (EvWrite fp data true);;
        mret (Z.of_nat (String.length data))
      else
        emit (EvWrite fp data false);; mret (-1)
  | None => undefined
  end.

(** [fclose(fp)]: the buffered bytes are written behind the content of
    the file and the stream is released, also when the call fails. *)
Definition fclose (fp : string) : M Z :=
  s ← get_state;
  match st_handle s with
  | Some h =>
      set_handle None;;
      if w_close w then
        set_file (h_name h) (content (st_fs s) (h_name h) +:+ h_pending h);;
        emit (EvClose fp true);;
        mret 0
      else
        emit (EvClose fp false);; mret EOF
  | None => undefined
  end.

(** The name without its six trailing [X], when it ends in them. *)
Definition template_prefix (t : string) : option string :=
  let n := String.length t in
  if decide (6 <= n)%nat then
    if decide (String.substring (n - 6) 6 t = "XXXXXX")
    then Some (String.substring 0 (n - 6) t) else None
  else None.

(** The attempts of [mkstemp]: each candidate name is opened with
    exclusive creation; a name that is taken is skipped. *)
Fixpoint mkstemp_try (prefix : string) (suffixes : list string) : M Z :=
  match suffixes with
  | [] => mret (-1)
  | x :: suffixes' =>
      let name := prefix +:+ x in
      s ← get_state;
      if decide (is_Some (st_fs s !! name)) then
        emit (EvCreate name true false);;
        mkstemp_try prefix suffixes'
      else if w_open w name then
        set_file name "";;
        set_handle (Some (Handle name ""));;
        emit (EvCreate name true true);;
        mret scratch_fd
      else
        emit (EvCreate name true false);; mret (-1)
  end.

(** [mkstemp(template)].  A template without the placeholder is
    refused.  Otherwise the placeholder is overwritten in place with
    each candidate suffix before the name is tried, which an immutable
    object does not allow. *)
Definition mkstemp (template : cobj) : M Z :=
  match template_prefix (obj_bytes template) with
  | None => mret (-1)
  | Some prefix =>
      match obj_storage template with
      | ReadOnly => undefined
      | Writable => mkstemp_try prefix (w_suffixes w)
      end
  end.

(** [dprintf(fd, fmt)] with no further argument: the formatted bytes
    go to the file at once. *)
Definition dprintf (fd : Z) (fmt : string) : M Z :=
  data ← defined (format_noargs fmt);
  s ← get_state;
  match st_handle s with
  | Some h =>
      if decide (fd = scratch_fd) then
        if w_write w then
          set_file (h_name h) (content (st_fs s) (h_name h) +:+ data);;
          emit (EvWrite (h_name h) data true);;
          mret (Z.of_nat (String.length data))
        else
          emit (EvWrite (h_name h) data false);; mret (-1)
      else mret (-1)
  | None => mret (-1)
  end.

(** [close(fd)]: the descriptor is released, also when the call fails. *)
Definition close (fd : Z) : M Z :=
  s ← get_state;
  match st_handle s with
  | Some h =>
      if decide (fd = scratch_fd) then
        set_handle None;;
        if w_close w then emit (EvClose (h_name h) true);; mret 0
        else emit (EvClose (h_name h) false);; mret (-1)
      else mret (-1)
  | None => mret (-1)
  end.

(** [execv(path, args)]: on success the process continues as [path]
    and nothing after the call runs; on failure the call returns -1.
    [args] is the array as the program filled it.  When it holds no null
    pointer the call reads on past its end, and what the new image
    receives after these elements, or whether the call fails for it, is
    not described: [Replaced path args] records the path and the array
    that were passed. *)
Definition execv (path : string) (args : list slot) : M Z :=
  if w_execv w then
    emit (EvExecv path args true);; stop (Replaced path args)
  else
    emit (EvExecv path args false);; mret (-1).

(** ** The two wrappers

    The generator substitutes three strings into each template, inside
    string literals.  The three variables are the bytes these literals
    denote once the file is compiled; for a text without backslash,
    double quote, question mark or line break they are the text that
    was substituted. *)

Variables toolchain_bin toolchain_program native_program : string.

Definition RANDOM_PATH_LENGTH : Z := 20.
Definition TOOLCHAIN_TOOL : string :=
  toolchain_bin +:+ "/" +:+ toolchain_program.

(** compiler_wrapper.c, line 40: the text [sprintf] produces from the
    first word of the random buffer. *)
Definition f_name_of (buf0 : Z) : string :=
  "/tmp/tuscan-native-" +:+ render_d (Int32.abs (Int32.to_int buf0)).

(** compiler_wrapper.c, [main].  [argc] is the length of [argv].  The
    path is copied into the array [toolchain_tool], which [execv] only
    reads.  Control that reaches the closing brace of [main] returns 0. *)
Definition compiler_main (argv : list string) : M Z :=
  '(r, buf) ← getrandom RANDOM_PATH_LENGTH;
  (if decide (r = -1)
   then perror "tuscan: compiler wrapper: getrandom";; exit 1
   else mret ());;
  buf0 ← defined buf;
  f_name ← sprintf 32 (f_name_of buf0);
  fp ← fopen_w f_name;
  match fp with
  | None => perror "tuscan: compiler wrapper: fopen";; exit 1
  | Some fp =>
      fprintf fp (native_program +:+ newline);;
      r ← fclose fp;
      (if decide (r = EOF)
       then perror "tuscan: compiler wrapper: fclose";; exit 1
       else mret ());;
      let toolchain_tool := TOOLCHAIN_TOOL in
      new_argv ← defined (build_new_argv toolchain_tool argv);
      execv toolchain_tool new_argv;;
      mret 0
  end.

(** tool_wrapper.c, [main], lines 30-47, with the object passed to
    [mkstemp] as a parameter.  The source passes a string literal
    ([tool_main] below); the parameter lets the statements after the
    call be followed for any object. *)
Definition tool_main_from (template : cobj) (argv : list string) : M Z :=
  fd ← mkstemp template;
  if decide (fd = -1) then
    perror "tuscan: mkstemp";; mret 1
  else
    dprintf fd (native_program +:+ newline);;
    r ← close fd;
    if decide (r = -1) then
      perror "tuscan: close";; mret 1
    else
      let toolchain_tool := TOOLCHAIN_TOOL in
      new_argv ← defined (build_new_argv toolchain_tool argv);
      execv toolchain_tool new_argv;;
      mret 0.

(** tool_wrapper.c, [main]: the template is a string literal. *)
Definition tool_main (argv : list string) : M Z :=
  tool_main_from (string_literal "/tmp/tuscan-native-XXXXXX") argv.

(** A whole run: from the files present at start to the way the
    process ends and the state it leaves. *)
Definition run (main : list string -> M Z) (fs : gmap string string)
    (argv : list string) : outcome * state :=
  match main argv (initial fs) with
  | Continue status s => (Exited status, s)
  | Stop o s => (o, s)
  end.

End Process.


(** ** Vocabulary of the properties *)

(** The vector the specification describes: the tool path, then the
    caller's arguments from position 1 on. *)
Definition forwarded (toolchain_tool : string) (argv : list string) : list slot :=
  Stored (Ptr toolchain_tool) :: ((λ s, Stored (Ptr s)) <$> tail argv).

(** Calls that precede the creation of the scratch file. *)
Definition quiet (e : event) : Prop :=
  match e with
  | EvGetrandom _ | EvCreate _ _ false => True
  | _ => False
  end.

Definition is_execv (e : event) : Prop :=
  match e with
  | EvExecv _ _ _ => True
  | _ => False
  end.

Definition is_perror (e : event) : Prop :=
  match e with
  | EvPerror _ => True
  | _ => False
  end.

(** Whether the scratch handle is open after an event, given whether it
    was open before. *)
Definition handle_step (open : bool) (e : event) : bool :=
  match e with
  | EvCreate _ _ true => true
  | EvClose _ _ => false
  | _ => open
  end.

Definition handle_open_after (t : list event) : bool :=
  foldl handle_step false t.

(** A run either issues no image replacement at all, or it is the
    successful creation of the scratch file, the write of the record,
    the successful close and the image replacement, in that order,
    after calls that touched no file.  An exclusive creation only
    succeeds on a name that was free. *)
Inductive run_shape (w : world) (tool fmt : string)
    (fs : gmap string string) (argv : list string)
    (r : outcome * state) : Prop :=
  | shape_no_exec :
      Forall (λ e, ~ is_execv e) (st_trace r.2) ->
      run_shape w tool fmt fs argv r
  | shape_exec (t0 : list event) (name data : string) (excl : bool) :
      Forall quiet t0 ->
      format_noargs fmt = Some data ->
      (1 <= length argv)%nat ->
      (excl = true -> fs !! name = None) ->
      r = (if w_execv w then Replaced tool (forwarded tool argv) else Exited 0,
           State (<[name := if w_write w then data else ""]> fs) None
             (t0 ++ [EvCreate name excl true;
                     EvWrite name data (w_write w);
                     EvClose name true;
                     EvExecv tool (forwarded tool argv) (w_execv w)])) ->
      run_shape w tool fmt fs argv r.

(** ** Sample environments *)

(** Every call succeeds; the random word is [r]. *)
Definition world_ok (r : Z) : world :=
  World (Some r) (λ _, true) true true true ["k3Yq0Z"].

(** Every call succeeds but the image replacement. *)
Definition world_exec_fails : world :=
  World (Some 7) (λ _, true) true true false ["k3Yq0Z"].

(** Every call succeeds but the write of the record. *)
Definition world_write_fails : world :=
  World (Some 7) (λ _, true) false true true ["k3Yq0Z"].

(** A file that is in the temporary directory before the wrapper runs. *)
Definition fs_taken : gmap string string :=
  {[ "/tmp/tuscan-native-7" := "earlier record" ]}.

(** ** The paths through the two programs *)

(** The ways a run of compiler_wrapper.c can go, each with the result it
    leaves: [getrandom] fails; [fopen] fails; the format has no defined
    output; [fclose] fails; the record is closed and there is no
    argument at all; the record is closed and [execv] is called. *)
Inductive compiler_path (w : world) (tb tp np : string)
    (fs : gmap string string) (argv : list string)
    (res : outcome * state) : Prop :=
  | cp_getrandom_fails :
      w_getrandom w = None ->
      res = (Exited 1,
             State fs None
               [EvGetrandom false;
                EvPerror "tuscan: compiler wrapper: getrandom"]) ->
      compiler_path w tb tp np fs argv res
  | cp_fopen_fails (r : Z) :
      w_getrandom w = Some r ->
      w_open w (f_name_of (Int32.to_unsigned r)) = false ->
      res = (Exited 1,
             State fs None
               [EvGetrandom true;
                EvCreate (f_name_of (Int32.to_unsigned r)) false false;
                EvPerror "tuscan: compiler wrapper: fopen"]) ->
      compiler_path w tb tp np fs argv res
  | cp_format_undefined (r : Z) :
      w_getrandom w = Some r ->
      w_open w (f_name_of (Int32.to_unsigned r)) = true ->
      format_noargs (np +:+ newline) = None ->
      res = (Fault,
             State (<[f_name_of (Int32.to_unsigned r) := ""]> fs)
               (Some (Handle (f_name_of (Int32.to_unsigned r)) ""))
               [EvGetrandom true;
                EvCreate (f_name_of (Int32.to_unsigned r)) false true]) ->
      compiler_path w tb tp np fs argv res
  | cp_fclose_fails (r : Z) (data : string) :
      w_getrandom w = Some r ->
      w_open w (f_name_of (Int32.to_unsigned r)) = true ->
      format_noargs (np +:+ newline) = Some data ->
      w_close w = false ->
      res = (Exited 1,
             State (<[f_name_of (Int32.to_unsigned r) := ""]> fs) None
               [EvGetrandom true;
                EvCreate (f_name_of (Int32.to_unsigned r)) false true;
                EvWrite (f_name_of (Int32.to_unsigned r)) data (w_write w);
                EvClose (f_name_of (Int32.to_unsigned r)) false;
                EvPerror "tuscan: compiler wrapper: fclose"]) ->
      compiler_path w tb tp np fs argv res
  | cp_no_argv (r : Z) (data : string) :
      w_getrandom w = Some r ->
      w_open w (f_name_of (Int32.to_unsigned r)) = true ->
      format_noargs (np +:+ newline) = Some data ->
      w_close w = true ->
      argv = [] ->
      res = (Fault,
             State (<[f_name_of (Int32.to_unsigned r)
                      := if w_write w then data else ""]> fs) None
               [EvGetrandom true;
                EvCreate (f_name_of (Int32.to_unsigned r)) false true;
                EvWrite (f_name_of (Int32.to_unsigned r)) data (w_write w);
                EvClose (f_name_of (Int32.to_unsigned r)) true]) ->
      compiler_path w tb tp np fs argv res
  | cp_execv (r : Z) (data : string) :
      w_getrandom w = Some r ->
      w_open w (f_name_of (Int32.to_unsigned r)) = true ->
      format_noargs (np +:+ newline) = Some data ->
      w_close w = true ->
      (1 <= length argv)%nat ->
      res = (if w_execv w
             then Replaced (TOOLCHAIN_TOOL tb tp)
                    (forwarded (TOOLCHAIN_TOOL tb tp) argv)
             else Exited 0,
             State (<[f_name_of (Int32.to_unsigned r)
                      := if w_write w then data else ""]> fs) None
               [EvGetrandom true;
                EvCreate (f_name_of (Int32.to_unsigned r)) false true;
                EvWrite (f_name_of (Int32.to_unsigned r)) data (w_write w);
                EvClose (f_name_of (Int32.to_unsigned r)) true;
                EvExecv (TOOLCHAIN_TOOL tb tp)
                  (forwarded (TOOLCHAIN_TOOL tb tp) argv) (w_execv w)]) ->
      compiler_path w tb tp np fs argv res.

(** The ways a run of tool_wrapper.c can go for a given template:
    [mkstemp] refuses the template; [mkstemp] has to write to an
    immutable template; [mkstemp] finds no name; then as above, on the
    file [mkstemp] created, which did not exist before.  [t0] holds the
    attempts of [mkstemp] that failed. *)
Inductive tool_path (w : world) (tb tp np : string) (template : cobj)
    (fs : gmap string string) (argv : list string)
    (res : outcome * state) : Prop :=
  | tp_template_refused :
      template_prefix (obj_bytes template) = None ->
      res = (Exited 1, State fs None [EvPerror "tuscan: mkstemp"]) ->
      tool_path w tb tp np template fs argv res
  | tp_template_immutable (prefix : string) :
      template_prefix (obj_bytes template) = Some prefix ->
      obj_storage template = ReadOnly ->
      res = (Fault, State fs None []) ->
      tool_path w tb tp np template fs argv res
  | tp_mkstemp_fails (t0 : list event) :
      obj_storage template = Writable ->
      Forall quiet t0 ->
      res = (Exited 1, State fs None (t0 ++ [EvPerror "tuscan: mkstemp"])) ->
      tool_path w tb tp np template fs argv res
  | tp_format_undefined (t0 : list event) (name : string) :
      obj_storage template = Writable ->
      Forall quiet t0 ->
      fs !! name = None ->
      format_noargs (np +:+ newline) = None ->
      res = (Fault,
             State (<[name := ""]> fs) (Some (Handle name ""))
               (t0 ++ [EvCreate name true true])) ->
      tool_path w tb tp np template fs argv res
  | tp_close_fails (t0 : list event) (name data : string) :
      obj_storage template = Writable ->
      Forall quiet t0 ->
      fs !! name = None ->
      format_noargs (np +:+ newline) = Some data ->
      w_close w = false ->
      res = (Exited 1,
             State (<[name := if w_write w then data else ""]> fs) None
               (t0 ++ [EvCreate name true true;
                       EvWrite name data (w_write w);
                       EvClose name false;
                       EvPerror "tuscan: close"])) ->
      tool_path w tb tp np template fs argv res
  | tp_no_argv (t0 : list event) (name data : string) :
      obj_storage template = Writable ->
      Forall quiet t0 ->
      fs !! name = None ->
      format_noargs (np +:+ newline) = Some data ->
      w_close w = true ->
      argv = [] ->
      res = (Fault,
             State (<[name := if w_write w then data else ""]> fs) None
               (t0 ++ [EvCreate name true true;
                       EvWrite name data (w_write w);
                       EvClose name true])) ->
      tool_path w tb tp np template fs argv res
  | tp_execv (t0 : list event) (name data : string) :
      obj_storage template = Writable ->
      Forall quiet t0 ->
      fs !! name = None ->
      format_noargs (np +:+ newline) = Some data ->
      w_close w = true ->
      (1 <= length argv)%nat ->
      res = (if w_execv w
             then Replaced (TOOLCHAIN_TOOL tb tp)
                    (forwarded (TOOLCHAIN_TOOL tb tp) argv)
             else Exited 0,
             State (<[name := if w_write w then data else ""]> fs) None
               (t0 ++ [EvCreate name true true;
                       EvWrite name data (w_write w);
                       EvClose name true;
                       EvExecv (TOOLCHAIN_TOOL tb tp)
                         (forwarded (TOOLCHAIN_TOOL tb tp) argv)
                         (w_execv w)])) ->
      tool_path w tb tp np template fs argv res.

(** A failed call and the diagnostic compiler_wrapper.c prints for it. *)
Definition compiler_diagnostic (e : event) (msg : string) : Prop :=
  (e = EvGetrandom false /\ msg = "tuscan: compiler wrapper: getrandom")
  \/ (exists name, e = EvCreate name false false
                   /\ msg = "tuscan: compiler wrapper: fopen")
  \/ (exists name, e = EvClose name false
                   /\ msg = "tuscan: compiler wrapper: fclose").

(** The temporary directory cannot be written: no file can be opened. *)
Definition world_no_tmp : world :=
  World (Some 7) (λ _, false) true true true ["k3Yq0Z"].

(** Closing the scratch handle fails. *)
Definition world_close_fails : world :=
  World (Some 7) (λ _, true) true false true ["k3Yq0Z"].

(** * Properties *)

(** ** Machine integers *)

Lemma to_int_range (z : Z) : Int32.INT_MIN <= Int32.to_int z <= Int32.INT_MAX.
Proof.
  unfold Int32.to_int, Int32.INT_MIN, Int32.INT_MAX, Int32.modulus.
  pose proof (Z.mod_pos_bound z (2 ^ 32) ltac:(lia)).
  destruct (Z.ltb_spec (z mod 2 ^ 32) (2 ^ 31)); lia.
Qed.

Lemma to_int_small (z : Z) :
  Int32.INT_MIN <= z <= Int32.INT_MAX -> Int32.to_int z = z.
Proof.
  unfold Int32.to_int, Int32.INT_MIN, Int32.INT_MAX, Int32.modulus. intros Hz.
  destruct (Z.ltb_spec (z mod 2 ^ 32) (2 ^ 31)) as [Hlt|Hge].
  - destruct (Z.le_gt_cases 0 z).
    + rewrite Z.mod_small by lia. reflexivity.
    + exfalso.
      replace z with (z + 2 ^ 32 - 1 * 2 ^ 32) in Hlt by lia.
      rewrite Zminus_mod, Z_mod_mult, Z.sub_0_r, Zmod_mod in Hlt.
      rewrite Z.mod_small in Hlt by lia. lia.
  - destruct (Z.le_gt_cases 0 z).
    + rewrite Z.mod_small in Hge by lia. lia.
    + replace z with (z + 2 ^ 32 - 1 * 2 ^ 32) at 1 by lia.
      rewrite Zminus_mod, Z_mod_mult, Z.sub_0_r, Zmod_mod.
      rewrite Z.mod_small by lia. lia.
Qed.

(** [abs] is the mathematical absolute value except at the most
    negative [int], which it returns unchanged. *)
Lemma abs_spec (x : Z) :
  Int32.INT_MIN <= x <= Int32.INT_MAX ->
  (x = Int32.INT_MIN /\ Int32.abs x = Int32.INT_MIN)
  \/ (Int32.INT_MIN < x /\ Int32.abs x = Z.abs x).
Proof.
  intros Hx. destruct (Z.eq_dec x Int32.INT_MIN) as [->|Hne].
  - left. split; [reflexivity|]. vm_compute. reflexivity.
  - right. split; [lia|]. unfold Int32.abs.
    destruct (Z.ltb_spec x 0).
    + rewrite to_int_small by (unfold Int32.INT_MIN, Int32.INT_MAX in *; lia). lia.
    + rewrite to_int_small by (unfold Int32.INT_MIN, Int32.INT_MAX in *; lia). lia.
Qed.

(** ** Decimal rendering *)

Lemma pretty_N_go_length (k : nat) :
  forall (x : N) (s : string),
    (x < 10 ^ N.of_nat k)%N ->
    (String.length (pretty_N_go x s) <= k + String.length s)%nat.
Proof.
  induction k as [|k IH]; intros x s Hx.
  - assert (x = 0%N) as -> by (simpl in Hx; lia).
    rewrite pretty_N_go_0. simpl. lia.
  - destruct (N.eq_dec x 0) as [->|Hpos].
    + rewrite pretty_N_go_0. lia.
    + rewrite pretty_N_go_step by lia.
      etransitivity.
      * apply IH. apply N.Div0.div_lt_upper_bound.
        rewrite Nat2N.inj_succ, N.pow_succ_r' in Hx. lia.
      * simpl. lia.
Qed.

Lemma pretty_N_length (k : nat) (x : N) :
  (x < 10 ^ N.of_nat (S k))%N -> (String.length (pretty x) <= S k)%nat.
Proof.
  intros Hx. unfold pretty, pretty_N. case_decide.
  - simpl. lia.
  - pose proof (pretty_N_go_length (S k) x "" Hx) as H'. simpl in H'. lia.
Qed.

Lemma string_length_app (s t : string) :
  String.length (s +:+ t) = (String.length s + String.length t)%nat.
Proof. induction s as [|c s IH]; simpl; [reflexivity|]. now rewrite IH. Qed.

Lemma render_d_nonneg_length (x : Z) :
  0 <= x <= Int32.INT_MAX -> (String.length (render_d x) <= 10)%nat.
Proof.
  intros Hx. unfold render_d, pretty, pretty_Z.
  destruct x as [|p|p]; [simpl; lia| |lia].
  apply (pretty_N_length 9 (N.pos p)).
  unfold Int32.INT_MAX in Hx. change (10 ^ N.of_nat 10)%N with 10000000000%N. lia.
Qed.

Lemma render_d_INT_MIN : render_d Int32.INT_MIN = "-2147483648".
Proof. vm_compute. reflexivity. Qed.

(** ** The scratch-file name of compiler_wrapper.c *)

Lemma f_name_of_size (buf0 : Z) : (c_sizeof (f_name_of buf0) <= 31)%nat.
Proof.
  unfold c_sizeof, f_name_of. rewrite string_length_app.
  change (String.length "/tmp/tuscan-native-") with 19%nat.
  pose proof (to_int_range buf0) as Hrange.
  destruct (abs_spec _ Hrange) as [[_ ->]|[Hlt ->]].
  - rewrite render_d_INT_MIN. simpl. lia.
  - pose proof (render_d_nonneg_length (Z.abs (Int32.to_int buf0))) as Hlen.
    unfold Int32.INT_MIN, Int32.INT_MAX in *. lia.
Qed.

Lemma sprintf_f_name (buf0 : Z) (s : state) :
  sprintf 32 (f_name_of buf0) s = Continue (f_name_of buf0) s.
Proof.
  unfold sprintf. pose proof (f_name_of_size buf0).
  rewrite decide_True by lia. reflexivity.
Qed.

(** Two random words give the same name exactly when their absolute
    values as [int] agree. *)
Lemma f_name_of_eq_iff (a b : Z) :
  f_name_of a = f_name_of b <->
  Int32.abs (Int32.to_int a) = Int32.abs (Int32.to_int b).
Proof.
  unfold f_name_of, render_d. split.
  - intros Heq. simplify_eq. assumption.
  - intros ->. reflexivity.
Qed.

(** ** The forwarded argument vector *)

Lemma copy_args_app (rest : list string) :
  forall (pre : list string) (done : list slot),
    length done = length pre ->
    copy_args (length rest) (length pre) (pre ++ rest)
              (done ++ replicate (length rest) Indeterminate)
    = Some (done ++ ((λ s, Stored (Ptr s)) <$> rest)).
Proof.
  induction rest as [|x rest IH]; intros pre done Hlen; simpl.
  - reflexivity.
  - unfold store, argv_read.
    rewrite list_lookup_middle by reflexivity.
    rewrite decide_True by (rewrite length_app; simpl; lia). simpl.
    rewrite <- Hlen.
    rewrite (insert_app_r_alt done _ (length done)) by lia.
    rewrite Nat.sub_diag. simpl.
    specialize (IH (pre ++ [x]) (done ++ [Stored (Ptr x)])).
    rewrite !length_app in IH. simpl in IH.
    rewrite <- !app_assoc in IH. simpl in IH.
    rewrite Hlen, Nat.add_1_r in *. apply IH. reflexivity.
Qed.

Lemma build_new_argv_cons (tool : string) (a0 : string) (rest : list string) :
  build_new_argv tool (a0 :: rest) = Some (forwarded tool (a0 :: rest)).
Proof.
  unfold build_new_argv, forwarded, store. simpl.
  rewrite Nat.sub_0_r.
  exact (copy_args_app rest [a0] [Stored (Ptr tool)] eq_refl).
Qed.

Lemma build_new_argv_nil (tool : string) : build_new_argv tool [] = None.
Proof. reflexivity. Qed.

Lemma build_new_argv_total (tool : string) (argv : list string) :
  (1 <= length argv)%nat ->
  build_new_argv tool argv = Some (forwarded tool argv).
Proof.
  destruct argv as [|a0 rest]; simpl; [lia|]. intros _.
  apply build_new_argv_cons.
Qed.

Lemma forwarded_length (tool : string) (argv : list string) :
  (1 <= length argv)%nat -> length (forwarded tool argv) = length argv.
Proof.
  destruct argv as [|a0 rest]; simpl; [lia|]. intros _.
  now rewrite length_fmap.
Qed.

Lemma forwarded_lookup (tool : string) (argv : list string) (i : nat) :
  (1 <= i < length argv)%nat ->
  exists s : string,
    argv !! i = Some s /\ forwarded tool argv !! i = Some (Stored (Ptr s)).
Proof.
  intros [Hi Hlt]. destruct (lookup_lt_is_Some_2 argv i Hlt) as [s Hs].
  exists s. split; [exact Hs|].
  destruct argv as [|a0 rest]; [discriminate|].
  destruct i as [|i]; [lia|]. simpl in *.
  rewrite list_lookup_fmap, Hs. reflexivity.
Qed.

Lemma forwarded_assigned (tool : string) (argv : list string) (i : nat) :
  (i < length argv)%nat ->
  exists s : string, forwarded tool argv !! i = Some (Stored (Ptr s)).
Proof.
  intros Hlt. destruct i as [|i].
  - exists tool. reflexivity.
  - destruct (forwarded_lookup tool argv (S i)) as (s & _ & Hs); [lia|].
    exists s. exact Hs.
Qed.

Lemma forwarded_no_null (tool : string) (argv : list string) :
  ~ null_terminated (forwarded tool argv).
Proof.
  unfold null_terminated, forwarded. intros Hin.
  apply elem_of_cons in Hin as [Heq|Hin]; [discriminate|].
  apply list_elem_of_fmap in Hin as (s & Heq & _). discriminate.
Qed.

(** A store at the position just past the array is not defined. *)
Lemma store_past_end (a : list slot) (p : cptr) : store a (length a) p = None.
Proof. unfold store. rewrite decide_False by lia. reflexivity. Qed.

(** ** Symbolic execution of the two programs *)

Ltac unfold_monad :=
  unfold mbind, M_bind, mret, M_ret, emit, set_file, set_handle, get_state,
    exit, undefined, stop, defined, perror, initial in *;
  cbn beta iota zeta delta
    [st_fs st_handle st_trace h_name h_pending fst snd app] in *.

Ltac decide_consts :=
  repeat match goal with
  | |- context [decide (?a = ?b)] =>
      first [ rewrite (decide_False (P := a = b)) by (vm_compute; discriminate)
            | rewrite (decide_True (P := a = b)) by reflexivity ]
  end.

Ltac run_step := repeat (progress (unfold_monad; decide_consts)).

Lemma quiet_no_execv (t : list event) :
  Forall quiet t -> Forall (λ e, ~ is_execv e) t.
Proof.
  intros Hq. eapply Forall_impl; [exact Hq|].
  intros [] Hx; simpl in *; tauto.
Qed.

Ltac no_exec :=
  apply shape_no_exec; cbn [snd st_trace];
  rewrite <- ?app_assoc; rewrite ?Forall_app;
  repeat split; auto using quiet_no_execv; repeat constructor; simpl; tauto.

Lemma content_insert (fs : gmap string string) (name data : string) :
  content (<[name := data]> fs) name = data.
Proof. unfold content. now rewrite lookup_insert_eq. Qed.

Lemma compiler_run_shape (w : world) (tb tp np : string)
    (fs : gmap string string) (argv : list string) :
  run_shape w (TOOLCHAIN_TOOL tb tp) (np +:+ newline) fs argv
    (run (compiler_main w tb tp np) fs argv).
Proof.
  unfold run, compiler_main, getrandom.
  generalize (TOOLCHAIN_TOOL tb tp) as tool. intros tool.
  destruct (w_getrandom w) as [r|]; run_step; [|no_exec].
  rewrite sprintf_f_name. unfold fopen_w.
  generalize (f_name_of (Int32.to_unsigned r)) as name. intros name.
  destruct (w_open w name); run_step; [|no_exec].
  unfold fprintf.
  destruct (format_noargs (np +:+ newline)) as [data|] eqn:Hfmt;
    run_step; [|no_exec].
  unfold fclose, execv.
  destruct (w_write w) eqn:Hwrite, (w_close w); run_step; try no_exec.
  all: destruct argv as [|a0 rest];
    [rewrite build_new_argv_nil; run_step; no_exec|].
  all: rewrite build_new_argv_cons; run_step.
  all: rewrite content_insert, insert_insert_eq.
  all: apply (shape_exec _ _ _ _ _ _ [EvGetrandom true] name data false);
    [repeat constructor | exact Hfmt | simpl; lia | discriminate |].
  all: rewrite Hwrite; destruct (w_execv w); run_step; reflexivity.
Qed.

(** The attempts of [mkstemp] return, either with -1 and no file
    created, or with the descriptor of a file that did not exist. *)
Lemma mkstemp_try_spec (w : world) (prefix : string) (suffixes : list string) :
  forall s : state, exists t0 : list event,
    Forall quiet t0 /\
    (mkstemp_try w prefix suffixes s
       = Continue (-1) (State (st_fs s) (st_handle s) (st_trace s ++ t0))
     \/ exists name : string,
          st_fs s !! name = None /\
          mkstemp_try w prefix suffixes s
            = Continue scratch_fd
                (State (<[name := ""]> (st_fs s)) (Some (Handle name ""))
                       (st_trace s ++ t0 ++ [EvCreate name true true]))).
Proof.
  induction suffixes as [|x suffixes IH]; intros [fs h t].
  - exists []. split; [constructor|]. left. simpl. now rewrite app_nil_r.
  - cbn [mkstemp_try]. run_step.
    destruct (decide (is_Some (fs !! (prefix +:+ x)))) as [Htaken|Hfree].
    + destruct (IH (State fs h (t ++ [EvCreate (prefix +:+ x) true false])))
        as (t0 & Hq & Hres).
      exists (EvCreate (prefix +:+ x) true false :: t0).
      split; [constructor; [exact I|exact Hq]|].
      cbn [st_fs st_handle st_trace] in Hres.
      cbn [st_fs st_handle st_trace].
      destruct Hres as [Hres|(name & Hfree & Hres)]; rewrite Hres.
      * left. now rewrite <- app_assoc.
      * right. exists name. split; [exact Hfree|]. now rewrite <- app_assoc.
    + destruct (w_open w (prefix +:+ x)); run_step.
      * exists []. split; [constructor|]. right. exists (prefix +:+ x).
        split; [now apply eq_None_not_Some|reflexivity].
      * exists [EvCreate (prefix +:+ x) true false].
        split; [repeat constructor|]. left. reflexivity.
Qed.

Lemma tool_run_shape (w : world) (tb tp np : string) (template : cobj)
    (fs : gmap string string) (argv : list string) :
  run_shape w (TOOLCHAIN_TOOL tb tp) (np +:+ newline) fs argv
    (run (tool_main_from w tb tp np template) fs argv).
Proof.
  unfold run, tool_main_from, mkstemp.
  generalize (TOOLCHAIN_TOOL tb tp) as tool. intros tool.
  destruct (template_prefix (obj_bytes template)) as [prefix|];
    run_step; [|no_exec].
  destruct (obj_storage template); run_step; [no_exec|].
  destruct (mkstemp_try_spec w prefix (w_suffixes w) (State fs None []))
    as (t0 & Hq & [Hres|(name & Hfree & Hres)]);
    cbn [st_fs st_handle st_trace app] in Hres; rewrite Hres; run_step.
  { no_exec. }
  unfold dprintf.
  destruct (format_noargs (np +:+ newline)) as [data|] eqn:Hfmt;
    run_step; [|no_exec].
  unfold close, execv.
  destruct (w_write w) eqn:Hwrite, (w_close w); run_step; try no_exec.
  all: destruct argv as [|a0 rest];
    [rewrite build_new_argv_nil; run_step; no_exec|].
  all: rewrite build_new_argv_cons; run_step.
  all: rewrite ?content_insert, ?insert_insert_eq.
  all: apply (shape_exec _ _ _ _ _ _ t0 name data true);
    [exact Hq | exact Hfmt | simpl; lia | intros _; exact Hfree |].
  all: rewrite Hwrite; destruct (w_execv w); run_step;
    rewrite <- ?app_assoc; reflexivity.
Qed.

(** ** What the shape of a run implies *)

Lemma shape_execv_event (w : world) (tool fmt : string)
    (fs : gmap string string) (argv : list string) (r : outcome * state)
    (path : string) (args : list slot) (ok : bool) :
  run_shape w tool fmt fs argv r ->
  EvExecv path args ok ∈ st_trace r.2 ->
  path = tool /\ args = forwarded tool argv /\ ok = w_execv w
  /\ (1 <= length argv)%nat
  /\ r.1 = (if ok then Replaced tool (forwarded tool argv) else Exited 0).
Proof.
  intros [Hnone|t0 name data excl Hq Hfmt Hlen Hexcl ->] Hin.
  - rewrite Forall_forall in Hnone. destruct (Hnone _ Hin). exact I.
  - cbn [snd fst st_trace] in *.
    apply elem_of_app in Hin as [Hin|Hin].
    + apply quiet_no_execv in Hq. rewrite Forall_forall in Hq.
      destruct (Hq _ Hin). exact I.
    + repeat (apply elem_of_cons in Hin as [Heq|Hin]; [try discriminate|]).
      * injection Heq as -> -> ->. repeat split; assumption || reflexivity.
      * apply elem_of_nil in Hin. destruct Hin.
Qed.

Lemma foldl_handle_step_quiet (t0 : list event) :
  Forall quiet t0 -> forall b : bool, foldl handle_step b t0 = b.
Proof.
  induction 1 as [|e t0 He _ IH]; intros b; [reflexivity|].
  cbn [foldl]. rewrite IH.
  destruct e as [?|? ? []|? ? ?|? ?|?|? ? ?]; simpl in *;
    reflexivity || contradiction.
Qed.

Lemma shape_ordered (w : world) (tool fmt : string)
    (fs : gmap string string) (argv : list string) (r : outcome * state)
    (k : nat) (path : string) (args : list slot) (ok : bool) :
  run_shape w tool fmt fs argv r ->
  st_trace r.2 !! k = Some (EvExecv path args ok) ->
  exists (c i j : nat) (name data : string) (excl wok : bool),
    (c < i < j)%nat /\ (j < k)%nat /\
    format_noargs fmt = Some data /\
    st_trace r.2 !! c = Some (EvCreate name excl true) /\
    st_trace r.2 !! i = Some (EvWrite name data wok) /\
    st_trace r.2 !! j = Some (EvClose name true) /\
    handle_open_after (take k (st_trace r.2)) = false.
Proof.
  intros [Hnone|t0 name data excl Hq Hfmt Hlen Hexcl ->] Hk.
  - rewrite Forall_lookup in Hnone. destruct (Hnone _ _ Hk). exact I.
  - cbn [snd st_trace] in *.
    apply lookup_app_Some in Hk as [Hk|[Hge Hk]].
    + apply quiet_no_execv in Hq. rewrite Forall_lookup in Hq.
      destruct (Hq _ _ Hk). exact I.
    + destruct (k - length t0)%nat as [|[|[|[|d]]]] eqn:Hd;
        try discriminate Hk.
      assert (k = length t0 + 3)%nat as -> by lia.
      exists (length t0), (length t0 + 1)%nat, (length t0 + 2)%nat,
        name, data, excl, (w_write w).
      split; [lia|]. split; [lia|]. split; [exact Hfmt|].
      split; [|split; [|split]].
      * rewrite lookup_app_r, Nat.sub_diag by lia. reflexivity.
      * rewrite lookup_app_r by lia.
        replace (length t0 + 1 - length t0)%nat with 1%nat by lia. reflexivity.
      * rewrite lookup_app_r by lia.
        replace (length t0 + 2 - length t0)%nat with 2%nat by lia. reflexivity.
      * rewrite take_app_add'  by reflexivity.
        unfold handle_open_after. rewrite foldl_app.
        rewrite (foldl_handle_step_quiet t0 Hq). reflexivity.
Qed.

(** ** Where the record and the exit status come from *)


(** compiler_wrapper.c when the random word is obtained, the file is
    opened and closed, and at least the program name is passed: the
    results of the write and of the image replacement do not change the
    calls that are issued. *)
Lemma compiler_run_through (w : world) (tb tp np : string)
    (fs : gmap string string) (argv : list string) (r : Z) (data : string) :
  w_getrandom w = Some r ->
  w_open w (f_name_of (Int32.to_unsigned r)) = true ->
  format_noargs (np +:+ newline) = Some data ->
  w_close w = true ->
  (1 <= length argv)%nat ->
  let name := f_name_of (Int32.to_unsigned r) in
  let tool := TOOLCHAIN_TOOL tb tp in
  run (compiler_main w tb tp np) fs argv
  = (if w_execv w then Replaced tool (forwarded tool argv) else Exited 0,
     State (<[name := if w_write w then data else ""]> fs) None
       [EvGetrandom true;
        EvCreate name false true;
        EvWrite name data (w_write w);
        EvClose name true;
        EvExecv tool (forwarded tool argv) (w_execv w)]).
Proof.
  intros Hrand Hopen Hfmt Hclose Hlen name tool. subst name tool.
  unfold run, compiler_main, getrandom. rewrite Hrand. run_step.
  rewrite sprintf_f_name. unfold fopen_w. rewrite Hopen. run_step.
  unfold fprintf. rewrite Hfmt. run_step.
  unfold fclose, execv. rewrite Hclose.
  rewrite (build_new_argv_total _ _ Hlen).
  destruct (w_write w), (w_execv w); run_step;
    rewrite content_insert, insert_insert_eq; reflexivity.
Qed.

(** compiler_wrapper.c when the random word, the file or the close
    fails: a diagnostic, status 1, and no image replacement. *)
Lemma compiler_failure_paths (w : world) (tb tp np : string)
    (fs : gmap string string) (argv : list string) :
  w_getrandom w = None
  \/ (exists r, w_getrandom w = Some r
              /\ w_open w (f_name_of (Int32.to_unsigned r)) = false)
  \/ (is_Some (format_noargs (np +:+ newline)) /\ w_close w = false) ->
  let res := run (compiler_main w tb tp np) fs argv in
  res.1 = Exited 1
  /\ (exists msg, last (st_trace res.2) = Some (EvPerror msg))
  /\ Forall (λ e, ~ is_execv e) (st_trace res.2).
Proof.
  intros Hfail. cbv zeta.
  unfold run, compiler_main, getrandom.
  destruct (w_getrandom w) as [r|] eqn:Hrand; run_step.
  2:{ repeat split; eauto; repeat constructor; simpl; tauto. }
  rewrite sprintf_f_name. unfold fopen_w.
  destruct (w_open w (f_name_of (Int32.to_unsigned r))) eqn:Hopen; run_step.
  2:{ repeat split; eauto; repeat constructor; simpl; tauto. }
  destruct Hfail as [Hfail|[(r' & Hr' & Hopen')|[[data Hfmt] Hclose]]];
    [discriminate|congruence|].
  unfold fprintf. rewrite Hfmt. run_step.
  unfold fclose. rewrite Hclose.
  destruct (w_write w); run_step;
    repeat split; eauto; repeat constructor; simpl; tauto.
Qed.

(** tool_wrapper.c: [mkstemp] on an immutable template with the
    placeholder never returns. *)
Lemma mkstemp_readonly (w : world) (template : cobj) (prefix : string) (s : state) :
  template_prefix (obj_bytes template) = Some prefix ->
  obj_storage template = ReadOnly ->
  mkstemp w template s = Stop Fault s.
Proof. intros Hp Hs. unfold mkstemp. rewrite Hp, Hs. reflexivity. Qed.

(** * The claims of the specification *)

(** C1.  The specification requires a non-zero exit status when the
    record was written and closed and the image replacement then fails.
    On the code the call to [execv] is the last statement of [main] and
    its result is not examined: compiler_wrapper.c, run where only
    [execv] fails, writes and closes the record, prints no diagnostic
    and ends with exit status 0. *)
Theorem exec_failure_exits_zero :
  run (compiler_main world_exec_fails "/opt/cross/bin" "gcc" "cc")
      ∅ ["wrap"; "-v"]
  = (Exited 0,
     State {[ "/tmp/tuscan-native-7" := "cc" +:+ newline ]} None
       [EvGetrandom true;
        EvCreate "/tmp/tuscan-native-7" false true;
        EvWrite "/tmp/tuscan-native-7" ("cc" +:+ newline) true;
        EvClose "/tmp/tuscan-native-7" true;
        EvExecv "/opt/cross/bin/gcc"
          [Stored (Ptr "/opt/cross/bin/gcc"); Stored (Ptr "-v")] false]).
Proof. vm_compute. reflexivity. Qed.

(** In both wrappers, whatever the environment: a run whose image
    replacement fails ends with exit status 0. *)
Lemma exec_failure_status (w : world) (tb tp np : string) (template : cobj)
    (fs : gmap string string) (argv : list string) (res : outcome * state)
    (path : string) (args : list slot) :
  res = run (compiler_main w tb tp np) fs argv
  \/ res = run (tool_main_from w tb tp np template) fs argv ->
  EvExecv path args false ∈ st_trace res.2 ->
  res.1 = Exited 0.
Proof.
  intros Hres Hin.
  assert (run_shape w (TOOLCHAIN_TOOL tb tp) (np +:+ newline) fs argv res)
    as Hshape.
  { destruct Hres as [->| ->];
      [apply compiler_run_shape|apply tool_run_shape]. }
  destruct (shape_execv_event _ _ _ _ _ _ _ _ _ Hshape Hin)
    as (_ & _ & _ & _ & Hout).
  exact Hout.
Qed.

(** C2.  The specification requires the scratch names of any two
    invocations to differ.  On the code the name of compiler_wrapper.c
    is the decimal rendering of [abs] of the first random word, and the
    file is opened without exclusive creation: the distinct words 1 and
    4294967295 both give /tmp/tuscan-native-1, both invocations succeed
    in opening it, and the second replaces the record of the first. *)
Theorem distinct_words_same_name :
  Int32.to_unsigned 1 <> Int32.to_unsigned 4294967295
  /\ f_name_of 1 = f_name_of 4294967295
  /\ let first :=
       run (compiler_main (world_ok 1) "/opt/cross/bin" "gcc" "cc")
           ∅ ["cc"; "-c"] in
     let second :=
       run (compiler_main (world_ok 4294967295) "/opt/cross/bin" "ld" "ld")
           (st_fs first.2) ["ld"] in
     st_trace first.2 !! 1%nat
       = Some (EvCreate "/tmp/tuscan-native-1" false true)
     /\ st_trace second.2 !! 1%nat
       = Some (EvCreate "/tmp/tuscan-native-1" false true)
     /\ st_fs first.2 = {[ "/tmp/tuscan-native-1" := "cc" +:+ newline ]}
     /\ st_fs second.2 = {[ "/tmp/tuscan-native-1" := "ld" +:+ newline ]}.
Proof.
  split; [vm_compute; discriminate|].
  split; [vm_compute; reflexivity|].
  cbv zeta. repeat split; vm_compute; reflexivity.
Qed.

(** C3.  For an argument vector of length n >= 1, the vector that either
    wrapper hands to [execv] is the one built by lines 54-59 (42-46): it
    has n elements, the first is the toolchain tool path, which is also
    the path that is executed, and each element at 1..n-1 is the
    caller's argument at that position. *)
Theorem forwarded_vector (w : world) (tb tp np : string) (template : cobj)
    (fs : gmap string string) (argv : list string) (n : nat)
    (path : string) (args : list slot) (ok : bool) :
  length argv = n ->
  (1 <= n)%nat ->
  EvExecv path args ok ∈ st_trace (run (compiler_main w tb tp np) fs argv).2
  \/ EvExecv path args ok
       ∈ st_trace (run (tool_main_from w tb tp np template) fs argv).2 ->
  path = TOOLCHAIN_TOOL tb tp
  /\ build_new_argv (TOOLCHAIN_TOOL tb tp) argv = Some args
  /\ length args = n
  /\ args !! 0%nat = Some (Stored (Ptr (TOOLCHAIN_TOOL tb tp)))
  /\ forall i : nat, (1 <= i <= n - 1)%nat ->
       exists s : string,
         argv !! i = Some s /\ args !! i = Some (Stored (Ptr s)).
Proof.
  intros Hn Hpos Hin.
  assert (path = TOOLCHAIN_TOOL tb tp
          /\ args = forwarded (TOOLCHAIN_TOOL tb tp) argv) as [-> ->].
  { destruct Hin as [Hin|Hin].
    - pose proof (compiler_run_shape w tb tp np fs argv) as Hshape.
      destruct (shape_execv_event _ _ _ _ _ _ _ _ _ Hshape Hin)
        as (? & ? & _). split; assumption.
    - pose proof (tool_run_shape w tb tp np template fs argv) as Hshape.
      destruct (shape_execv_event _ _ _ _ _ _ _ _ _ Hshape Hin)
        as (? & ? & _). split; assumption. }
  subst n. split; [reflexivity|].
  split; [apply build_new_argv_total; exact Hpos|].
  split; [apply forwarded_length; exact Hpos|].
  split; [reflexivity|].
  intros i Hi. apply forwarded_lookup. lia.
Qed.

Lemma forwarded_vector_witness :
  let argv := ["wrap"; "-v"] in
  let args := [Stored (Ptr "/opt/cross/bin/gcc"); Stored (Ptr "-v")] in
  length argv = 2%nat
  /\ (1 <= 2)%nat
  /\ EvExecv "/opt/cross/bin/gcc" args true
       ∈ st_trace (run (compiler_main (world_ok 7) "/opt/cross/bin" "gcc" "cc")
                       ∅ argv).2
  /\ ("/opt/cross/bin/gcc" = TOOLCHAIN_TOOL "/opt/cross/bin" "gcc"
      /\ build_new_argv (TOOLCHAIN_TOOL "/opt/cross/bin" "gcc") argv = Some args
      /\ length args = 2%nat
      /\ args !! 0%nat
         = Some (Stored (Ptr (TOOLCHAIN_TOOL "/opt/cross/bin" "gcc")))
      /\ forall i : nat, (1 <= i <= 2 - 1)%nat ->
           exists s : string,
             argv !! i = Some s /\ args !! i = Some (Stored (Ptr s))).
Proof.
  cbv zeta.
  assert (EvExecv "/opt/cross/bin/gcc"
            [Stored (Ptr "/opt/cross/bin/gcc"); Stored (Ptr "-v")] true
          ∈ st_trace (run (compiler_main (world_ok 7) "/opt/cross/bin" "gcc" "cc")
                          ∅ ["wrap"; "-v"]).2) as Hin.
  { apply (list_elem_of_lookup_2 _ 4). vm_compute. reflexivity. }
  split; [reflexivity|]. split; [lia|]. split; [exact Hin|].
  apply (forwarded_vector (world_ok 7) "/opt/cross/bin" "gcc" "cc"
           (string_literal "/tmp/tuscan-native-XXXXXX") ∅ ["wrap"; "-v"] 2
           "/opt/cross/bin/gcc" _ true).
  - reflexivity.
  - lia.
  - left. exact Hin.
Defined.

(** C4.  The specification requires that the image replacement is never
    reached before the record has been written and closed.  On the code
    the result of the write is discarded (the defect of C6):
    compiler_wrapper.c, run where only the write fails, goes on to close
    the file and reaches [execv] while the scratch file is empty. *)
Theorem exec_reached_without_record :
  let res :=
    run (compiler_main world_write_fails "/opt/cross/bin" "ld" "ld")
        ∅ ["ld"; "-r"; "a.o"] in
  let args := [Stored (Ptr "/opt/cross/bin/ld"); Stored (Ptr "-r");
               Stored (Ptr "a.o")] in
  st_trace res.2 !! 2%nat
    = Some (EvWrite "/tmp/tuscan-native-7" ("ld" +:+ newline) false)
  /\ st_trace res.2 !! 3%nat = Some (EvClose "/tmp/tuscan-native-7" true)
  /\ st_trace res.2 !! 4%nat = Some (EvExecv "/opt/cross/bin/ld" args true)
  /\ res.1 = Replaced "/opt/cross/bin/ld" args
  /\ st_fs res.2 !! "/tmp/tuscan-native-7" = Some ""
  /\ "" <> "ld" +:+ newline.
Proof.
  cbv zeta. repeat split; try (vm_compute; reflexivity).
  vm_compute. discriminate.
Qed.

(** What holds of the order on every path: an image replacement found
    in the trace is preceded, in this order, by the successful creation
    of the scratch file, the call that writes the record to it and the
    successful close of it, and the scratch handle is not open when the
    image replacement is issued. *)
Theorem record_then_redirect (w : world) (tb tp np : string) (template : cobj)
    (fs : gmap string string) (argv : list string) (t : list event)
    (k : nat) (path : string) (args : list slot) (ok : bool) :
  t = st_trace (run (compiler_main w tb tp np) fs argv).2
  \/ t = st_trace (run (tool_main_from w tb tp np template) fs argv).2 ->
  t !! k = Some (EvExecv path args ok) ->
  exists (c i j : nat) (name data : string) (excl wok : bool),
    (c < i < j)%nat /\ (j < k)%nat
    /\ format_noargs (np +:+ newline) = Some data
    /\ t !! c = Some (EvCreate name excl true)
    /\ t !! i = Some (EvWrite name data wok)
    /\ t !! j = Some (EvClose name true)
    /\ handle_open_after (take k t) = false.
Proof.
  intros [-> | ->] Hk.
  - exact (shape_ordered _ _ _ _ _ _ _ _ _ _
             (compiler_run_shape w tb tp np fs argv) Hk).
  - exact (shape_ordered _ _ _ _ _ _ _ _ _ _
             (tool_run_shape w tb tp np template fs argv) Hk).
Qed.

Lemma record_then_redirect_witness :
  let t :=
    st_trace (run (tool_main_from (world_ok 7) "/opt/cross/bin" "gcc" "cc"
                     (char_array "/tmp/tuscan-native-XXXXXX"))
                  ∅ ["wrap"; "-v"]).2 in
  t !! 3%nat
    = Some (EvExecv "/opt/cross/bin/gcc"
              [Stored (Ptr "/opt/cross/bin/gcc"); Stored (Ptr "-v")] true)
  /\ exists (c i j : nat) (name data : string) (excl wok : bool),
       (c < i < j)%nat /\ (j < 3)%nat
       /\ format_noargs ("cc" +:+ newline) = Some data
       /\ t !! c = Some (EvCreate name excl true)
       /\ t !! i = Some (EvWrite name data wok)
       /\ t !! j = Some (EvClose name true)
       /\ handle_open_after (take 3 t) = false.
Proof.
  cbv zeta. split; [vm_compute; reflexivity|].
  apply (record_then_redirect (world_ok 7) "/opt/cross/bin" "gcc" "cc"
           (char_array "/tmp/tuscan-native-XXXXXX") ∅ ["wrap"; "-v"] _ 3
           "/opt/cross/bin/gcc"
           [Stored (Ptr "/opt/cross/bin/gcc"); Stored (Ptr "-v")] true).
  - right. reflexivity.
  - vm_compute. reflexivity.
Defined.

(** When the write succeeded, a run of either wrapper that issues the
    image replacement has the record in the scratch file and the handle
    released: the state is that of the run, not a reading of the trace. *)
Lemma record_on_disk_at_exec (w : world) (tb tp np : string) (template : cobj)
    (fs : gmap string string) (argv : list string) (res : outcome * state)
    (path : string) (args : list slot) (ok : bool) :
  res = run (compiler_main w tb tp np) fs argv
  \/ res = run (tool_main_from w tb tp np template) fs argv ->
  w_write w = true ->
  EvExecv path args ok ∈ st_trace res.2 ->
  exists name data : string,
    format_noargs (np +:+ newline) = Some data
    /\ EvClose name true ∈ st_trace res.2
    /\ st_fs res.2 !! name = Some data
    /\ st_handle res.2 = None.
Proof.
  intros Hres Hwrite Hin.
  assert (run_shape w (TOOLCHAIN_TOOL tb tp) (np +:+ newline) fs argv res)
    as Hshape.
  { destruct Hres as [->| ->];
      [apply compiler_run_shape|apply tool_run_shape]. }
  destruct Hshape as [Hnone|t0 name data excl Hq Hfmt Hlen Hexcl ->].
  - rewrite Forall_forall in Hnone. destruct (Hnone _ Hin). exact I.
  - exists name, data. cbn [snd st_fs st_handle st_trace].
    split; [exact Hfmt|]. split.
    + apply elem_of_app. right.
      apply (list_elem_of_lookup_2 _ 2). reflexivity.
    + rewrite Hwrite. split; [apply lookup_insert_eq|reflexivity].
Qed.

(** C5.  The specification requires every wrapper to create its scratch
    file exclusively, with retry on collision, so that a file already
    present is never opened or overwritten.  On the code
    compiler_wrapper.c opens the name with [fopen(f_name, "w")]: when
    the file is there already, the single, non-exclusive open succeeds
    and the earlier content is replaced by the new record. *)
Theorem existing_file_overwritten :
  fs_taken !! "/tmp/tuscan-native-7" = Some "earlier record"
  /\ run (compiler_main (world_ok 7) "/opt/cross/bin" "gcc" "cc")
         fs_taken ["wrap"; "-v"]
     = (Replaced "/opt/cross/bin/gcc"
          [Stored (Ptr "/opt/cross/bin/gcc"); Stored (Ptr "-v")],
        State {[ "/tmp/tuscan-native-7" := "cc" +:+ newline ]} None
          [EvGetrandom true;
           EvCreate "/tmp/tuscan-native-7" false true;
           EvWrite "/tmp/tuscan-native-7" ("cc" +:+ newline) true;
           EvClose "/tmp/tuscan-native-7" true;
           EvExecv "/opt/cross/bin/gcc"
             [Stored (Ptr "/opt/cross/bin/gcc"); Stored (Ptr "-v")] true]).
Proof. split; vm_compute; reflexivity. Qed.

(** The sibling, [mkstemp]: a descriptor is only returned for a name
    that did not exist. *)
Lemma mkstemp_exclusive (w : world) (template : cobj) (s s' : state) (fd : Z) :
  mkstemp w template s = Continue fd s' ->
  fd <> -1 ->
  exists name : string,
    st_fs s !! name = None
    /\ st_fs s' = <[name := ""]> (st_fs s)
    /\ st_handle s' = Some (Handle name "").
Proof.
  unfold mkstemp. intros Hrun Hfd.
  destruct (template_prefix (obj_bytes template)) as [prefix|].
  2:{ injection Hrun as <- _. destruct Hfd. reflexivity. }
  destruct (obj_storage template); [discriminate Hrun|].
  destruct (mkstemp_try_spec w prefix (w_suffixes w) s)
    as (t0 & _ & [Hres|(name & Hfree & Hres)]);
    rewrite Hres in Hrun; injection Hrun as <- <-.
  - destruct Hfd. reflexivity.
  - exists name. repeat split; assumption || reflexivity.
Qed.

(** C6.  The specification requires a failed write of the record to be
    reported and to end the wrapper with status 1 before any redirect.
    On the code the result of [fprintf] (of [dprintf] in
    tool_wrapper.c) is discarded: compiler_wrapper.c, run where only
    the write fails, prints no diagnostic, leaves an empty scratch file
    and replaces the image. *)
Theorem failed_write_proceeds :
  run (compiler_main world_write_fails "/opt/cross/bin" "gcc" "cc")
      ∅ ["wrap"; "-v"]
  = (Replaced "/opt/cross/bin/gcc"
       [Stored (Ptr "/opt/cross/bin/gcc"); Stored (Ptr "-v")],
     State {[ "/tmp/tuscan-native-7" := "" ]} None
       [EvGetrandom true;
        EvCreate "/tmp/tuscan-native-7" false true;
        EvWrite "/tmp/tuscan-native-7" ("cc" +:+ newline) false;
        EvClose "/tmp/tuscan-native-7" true;
        EvExecv "/opt/cross/bin/gcc"
          [Stored (Ptr "/opt/cross/bin/gcc"); Stored (Ptr "-v")] true]).
Proof. vm_compute. reflexivity. Qed.

(** Whether the write succeeds or not, compiler_wrapper.c prints no
    diagnostic and issues the image replacement once the file was
    opened and closed. *)
Lemma write_result_ignored (w : world) (tb tp np : string)
    (fs : gmap string string) (argv : list string) (r : Z) (data : string) :
  w_getrandom w = Some r ->
  w_open w (f_name_of (Int32.to_unsigned r)) = true ->
  format_noargs (np +:+ newline) = Some data ->
  w_close w = true ->
  (1 <= length argv)%nat ->
  let t := st_trace (run (compiler_main w tb tp np) fs argv).2 in
  Forall (λ e, ~ is_perror e) t
  /\ last t = Some (EvExecv (TOOLCHAIN_TOOL tb tp)
                      (forwarded (TOOLCHAIN_TOOL tb tp) argv) (w_execv w)).
Proof.
  intros Hrand Hopen Hfmt Hclose Hlen.
  rewrite (compiler_run_through w tb tp np fs argv r data) by assumption.
  cbn [snd st_trace]. split; [|reflexivity].
  repeat constructor; simpl; tauto.
Qed.

(** C7.  The specification requires the record to be the native program
    name followed by a newline.  On the code the name is substituted
    into the format string of [fprintf] ([dprintf]), which interprets
    percent signs: for the name consisting of two percent signs, a run
    in which every call succeeds leaves a record of one percent sign and
    a newline.  The image that is executed is as the claim states. *)
Theorem percent_sign_in_name :
  let res :=
    run (compiler_main (world_ok 7) "/opt/cross/bin" "gcc" "%%")
        ∅ ["wrap"; "-v"] in
  res.1 = Replaced "/opt/cross/bin/gcc"
            [Stored (Ptr "/opt/cross/bin/gcc"); Stored (Ptr "-v")]
  /\ st_fs res.2 = {[ "/tmp/tuscan-native-7" := "%" +:+ newline ]}
  /\ "%" +:+ newline <> "%%" +:+ newline.
Proof.
  cbv zeta. split; [vm_compute; reflexivity|].
  split; [vm_compute; reflexivity|]. vm_compute. discriminate.
Qed.

(** C8.  For argc >= 1, the array that either wrapper passes to [execv]
    has exactly argc elements; every position 0..argc-1 holds a non-null
    pointer; there is no element at position argc and no store to it;
    hence the array holds no null pointer, which [execv] requires as
    terminator. *)
Theorem no_null_sentinel (w : world) (tb tp np : string) (template : cobj)
    (fs : gmap string string) (argv : list string) (argc : nat)
    (path : string) (args : list slot) (ok : bool) :
  length argv = argc ->
  (1 <= argc)%nat ->
  EvExecv path args ok ∈ st_trace (run (compiler_main w tb tp np) fs argv).2
  \/ EvExecv path args ok
       ∈ st_trace (run (tool_main_from w tb tp np template) fs argv).2 ->
  build_new_argv (TOOLCHAIN_TOOL tb tp) argv = Some args
  /\ length args = argc
  /\ (forall i : nat, (i < argc)%nat ->
        exists s : string, args !! i = Some (Stored (Ptr s)))
  /\ args !! argc = None
  /\ (forall p : cptr, store args argc p = None)
  /\ ~ null_terminated args.
Proof.
  intros Hn Hpos Hin.
  assert (args = forwarded (TOOLCHAIN_TOOL tb tp) argv) as ->.
  { destruct Hin as [Hin|Hin].
    - pose proof (compiler_run_shape w tb tp np fs argv) as Hshape.
      destruct (shape_execv_event _ _ _ _ _ _ _ _ _ Hshape Hin)
        as (_ & ? & _). assumption.
    - pose proof (tool_run_shape w tb tp np template fs argv) as Hshape.
      destruct (shape_execv_event _ _ _ _ _ _ _ _ _ Hshape Hin)
        as (_ & ? & _). assumption. }
  subst argc.
  pose proof (forwarded_length (TOOLCHAIN_TOOL tb tp) argv Hpos) as Hlen.
  split; [apply build_new_argv_total; exact Hpos|].
  split; [exact Hlen|].
  split; [intros i Hi; apply forwarded_assigned; exact Hi|].
  split; [apply lookup_ge_None_2; lia|].
  split; [intros p; rewrite <- Hlen; apply store_past_end|].
  apply forwarded_no_null.
Qed.

Lemma no_null_sentinel_witness :
  let argv := ["wrap"; "-v"; "-o"] in
  let args := [Stored (Ptr "/opt/cross/bin/ld"); Stored (Ptr "-v");
               Stored (Ptr "-o")] in
  length argv = 3%nat
  /\ (1 <= 3)%nat
  /\ EvExecv "/opt/cross/bin/ld" args false
       ∈ st_trace (run (compiler_main world_exec_fails "/opt/cross/bin" "ld" "ld")
                       ∅ argv).2
  /\ (build_new_argv (TOOLCHAIN_TOOL "/opt/cross/bin" "ld") argv = Some args
      /\ length args = 3%nat
      /\ (forall i : nat, (i < 3)%nat ->
            exists s : string, args !! i = Some (Stored (Ptr s)))
      /\ args !! 3%nat = None
      /\ (forall p : cptr, store args 3 p = None)
      /\ ~ null_terminated args).
Proof.
  cbv zeta.
  assert (EvExecv "/opt/cross/bin/ld"
            [Stored (Ptr "/opt/cross/bin/ld"); Stored (Ptr "-v");
             Stored (Ptr "-o")] false
          ∈ st_trace (run (compiler_main world_exec_fails
                             "/opt/cross/bin" "ld" "ld")
                          ∅ ["wrap"; "-v"; "-o"]).2) as Hin.
  { apply (list_elem_of_lookup_2 _ 4). vm_compute. reflexivity. }
  split; [reflexivity|]. split; [lia|]. split; [exact Hin|].
  apply (no_null_sentinel world_exec_fails "/opt/cross/bin" "ld" "ld"
           (string_literal "/tmp/tuscan-native-XXXXXX") ∅
           ["wrap"; "-v"; "-o"] 3 "/opt/cross/bin/ld" _ false).
  - reflexivity.
  - lia.
  - left. exact Hin.
Defined.

(** C9.  In tool_wrapper.c the object passed to [mkstemp] is a string
    literal that ends in the placeholder.  [mkstemp] has to overwrite
    the placeholder in place, so the call leaves defined behaviour
    before any file is created: whatever the environment and the
    arguments, the run ends there, with no call issued and no file
    changed, and neither branch after the call is reached. *)
Theorem literal_template_faults (w : world) (tb tp np : string)
    (fs : gmap string string) (argv : list string) :
  obj_storage (string_literal "/tmp/tuscan-native-XXXXXX") = ReadOnly
  /\ template_prefix (obj_bytes (string_literal "/tmp/tuscan-native-XXXXXX"))
     = Some "/tmp/tuscan-native-"
  /\ (forall s : state,
        mkstemp w (string_literal "/tmp/tuscan-native-XXXXXX") s
        = Stop Fault s)
  /\ run (tool_main w tb tp np) fs argv = (Fault, initial fs).
Proof.
  assert (template_prefix (obj_bytes (string_literal "/tmp/tuscan-native-XXXXXX"))
          = Some "/tmp/tuscan-native-") as Hprefix
    by (vm_compute; reflexivity).
  split; [reflexivity|]. split; [exact Hprefix|].
  assert (forall s : state,
            mkstemp w (string_literal "/tmp/tuscan-native-XXXXXX") s
            = Stop Fault s) as Hfault.
  { intros s. now apply (mkstemp_readonly w _ "/tmp/tuscan-native-"). }
  split; [exact Hfault|].
  unfold run, tool_main, tool_main_from. unfold mbind at 1, M_bind at 1.
  rewrite Hfault. reflexivity.
Qed.

(** C10.  For every value of the first random word, the name that
    compiler_wrapper.c formats occupies at most 31 bytes with its
    terminator, so [sprintf] stays inside the 32 bytes of [f_name].  The
    bound is met by the most negative [int], which [abs] returns
    unchanged and [%d] renders in 11 characters. *)
Theorem f_name_fits (buf0 : Z) :
  (c_sizeof (f_name_of buf0) <= 31)%nat
  /\ (forall s : state,
        sprintf 32 (f_name_of buf0) s = Continue (f_name_of buf0) s)
  /\ Int32.abs (Int32.to_int (Int32.to_unsigned Int32.INT_MIN)) = Int32.INT_MIN
  /\ String.length (render_d Int32.INT_MIN) = 11%nat
  /\ c_sizeof (f_name_of (Int32.to_unsigned Int32.INT_MIN)) = 31%nat.
Proof.
  split; [apply f_name_of_size|].
  split; [intros s; apply sprintf_f_name|].
  repeat split; vm_compute; reflexivity.
Qed.

(** * Further properties of the two programs *)

(** ** Every run follows one of the paths *)

Lemma compiler_run_path (w : world) (tb tp np : string)
    (fs : gmap string string) (argv : list string) :
  compiler_path w tb tp np fs argv (run (compiler_main w tb tp np) fs argv).
Proof.
  unfold run, compiler_main, getrandom.
  destruct (w_getrandom w) as [r|] eqn:Hrand; run_step.
  2:{ apply cp_getrandom_fails; [exact Hrand|reflexivity]. }
  rewrite sprintf_f_name. unfold fopen_w.
  destruct (w_open w (f_name_of (Int32.to_unsigned r))) eqn:Hopen; run_step.
  2:{ apply (cp_fopen_fails _ _ _ _ _ _ _ r); [assumption..|reflexivity]. }
  unfold fprintf.
  destruct (format_noargs (np +:+ newline)) as [data|] eqn:Hfmt; run_step.
  2:{ apply (cp_format_undefined _ _ _ _ _ _ _ r); [assumption..|reflexivity]. }
  unfold fclose, execv.
  destruct (w_close w) eqn:Hclose.
  2:{ apply (cp_fclose_fails _ _ _ _ _ _ _ r data); [assumption..|].
      destruct (w_write w); run_step; reflexivity. }
  destruct argv as [|a0 rest].
  - apply (cp_no_argv _ _ _ _ _ _ _ r data); [assumption..|reflexivity|].
    rewrite build_new_argv_nil.
    destruct (w_write w); run_step;
      rewrite content_insert, insert_insert_eq; reflexivity.
  - apply (cp_execv _ _ _ _ _ _ _ r data); [assumption..|simpl; lia|].
    rewrite build_new_argv_cons.
    destruct (w_write w), (w_execv w); run_step;
      rewrite content_insert, insert_insert_eq; reflexivity.
Qed.

Lemma tool_run_path (w : world) (tb tp np : string) (template : cobj)
    (fs : gmap string string) (argv : list string) :
  tool_path w tb tp np template fs argv
    (run (tool_main_from w tb tp np template) fs argv).
Proof.
  unfold run, tool_main_from, mkstemp.
  destruct (template_prefix (obj_bytes template)) as [prefix|] eqn:Hprefix;
    run_step.
  2:{ apply tp_template_refused; [exact Hprefix|reflexivity]. }
  destruct (obj_storage template) eqn:Hstorage; run_step.
  { apply (tp_template_immutable _ _ _ _ _ _ _ _ prefix);
      [assumption..|reflexivity]. }
  destruct (mkstemp_try_spec w prefix (w_suffixes w) (State fs None []))
    as (t0 & Hq & [Hres|(name & Hfree & Hres)]);
    cbn [st_fs st_handle st_trace app] in *; rewrite Hres; run_step.
  { apply (tp_mkstemp_fails _ _ _ _ _ _ _ _ t0); [assumption..|reflexivity]. }
  unfold dprintf.
  destruct (format_noargs (np +:+ newline)) as [data|] eqn:Hfmt; run_step.
  2:{ apply (tp_format_undefined _ _ _ _ _ _ _ _ t0 name);
        [assumption..|reflexivity]. }
  unfold close, execv.
  destruct (w_close w) eqn:Hclose.
  2:{ apply (tp_close_fails _ _ _ _ _ _ _ _ t0 name data); [assumption..|].
      destruct (w_write w); run_step;
        rewrite ?content_insert, ?insert_insert_eq, <- ?app_assoc;
        reflexivity. }
  destruct argv as [|a0 rest].
  - apply (tp_no_argv _ _ _ _ _ _ _ _ t0 name data);
      [assumption..|reflexivity|].
    rewrite build_new_argv_nil.
    destruct (w_write w); run_step;
      rewrite ?content_insert, ?insert_insert_eq, <- ?app_assoc;
      reflexivity.
  - apply (tp_execv _ _ _ _ _ _ _ _ t0 name data);
      [assumption..|simpl; lia|].
    rewrite build_new_argv_cons.
    destruct (w_write w), (w_execv w); run_step;
      rewrite ?content_insert, ?insert_insert_eq, <- ?app_assoc;
      reflexivity.
Qed.

(** ** Exit status and diagnostics of compiler_wrapper.c *)

(** X1.  compiler_wrapper.c ends with exit status 0 exactly when its last
    call is an [execv] that failed. *)
Theorem compiler_exit_zero_iff (w : world) (tb tp np : string)
    (fs : gmap string string) (argv : list string) :
  let res := run (compiler_main w tb tp np) fs argv in
  res.1 = Exited 0
  <-> exists (path : string) (args : list slot),
        last (st_trace res.2) = Some (EvExecv path args false).
Proof.
  cbv zeta.
  destruct (compiler_run_path w tb tp np fs argv)
    as [Hr ->|r Hr Ho ->|r Hr Ho Hf ->|r data Hr Ho Hf Hc ->
       |r data Hr Ho Hf Hc Ha ->|r data Hr Ho Hf Hc Ha ->];
    cbn [fst snd st_trace last].
  1-5: split; [intros [=]|intros (path & args & [=])].
  destruct (w_execv w); split;
    [intros [=]|intros (path & args & [=])|eauto|reflexivity].
Qed.

(** X2.  compiler_wrapper.c ends with exit status 1 exactly when
    [getrandom] fails, or [fopen] fails, or the record could be
    formatted and [fclose] fails. *)
Theorem compiler_exit_one_iff (w : world) (tb tp np : string)
    (fs : gmap string string) (argv : list string) :
  (run (compiler_main w tb tp np) fs argv).1 = Exited 1
  <-> w_getrandom w = None
      \/ (exists r : Z,
            w_getrandom w = Some r
            /\ w_open w (f_name_of (Int32.to_unsigned r)) = false)
      \/ (exists r : Z,
            w_getrandom w = Some r
            /\ w_open w (f_name_of (Int32.to_unsigned r)) = true
            /\ is_Some (format_noargs (np +:+ newline))
            /\ w_close w = false).
Proof.
  destruct (compiler_run_path w tb tp np fs argv)
    as [Hr ->|r Hr Ho ->|r Hr Ho Hf ->|r data Hr Ho Hf Hc ->
       |r data Hr Ho Hf Hc Ha ->|r data Hr Ho Hf Hc Ha ->];
    cbn [fst].
  - split; [intros _; left; exact Hr|reflexivity].
  - split; [intros _; right; left; eauto|reflexivity].
  - split; [intros [=]|].
    intros [Hn|[(r' & Hr' & Ho')|(r' & Hr' & Ho' & [d Hd] & Hc')]];
      congruence.
  - split; [|reflexivity]. intros _. right. right. exists r.
    rewrite Hf. eauto.
  - split; [intros [=]|].
    intros [Hn|[(r' & Hr' & Ho')|(r' & Hr' & Ho' & _ & Hc')]]; congruence.
  - split.
    + destruct (w_execv w); intros [=].
    + intros [Hn|[(r' & Hr' & Ho')|(r' & Hr' & Ho' & _ & Hc')]]; congruence.
Qed.

(** X3.  In a run of compiler_wrapper.c a diagnostic is the last call of
    the run, the run ends with exit status 1, and the call just before
    the diagnostic is the failed call that the message names. *)
Theorem compiler_diagnostic_last (w : world) (tb tp np : string)
    (fs : gmap string string) (argv : list string) (k : nat) (msg : string) :
  let res := run (compiler_main w tb tp np) fs argv in
  st_trace res.2 !! k = Some (EvPerror msg) ->
  S k = length (st_trace res.2)
  /\ res.1 = Exited 1
  /\ exists e : event,
       (1 <= k)%nat
       /\ st_trace res.2 !! (k - 1)%nat = Some e
       /\ compiler_diagnostic e msg.
Proof.
  cbv zeta. unfold compiler_diagnostic.
  destruct (compiler_run_path w tb tp np fs argv)
    as [Hr ->|r Hr Ho ->|r Hr Ho Hf ->|r data Hr Ho Hf Hc ->
       |r data Hr Ho Hf Hc Ha ->|r data Hr Ho Hf Hc Ha ->];
    cbn [fst snd st_trace]; intros Hk;
    destruct k as [|[|[|[|[|[|k]]]]]]; try discriminate Hk;
    injection Hk as <-;
    (split; [reflexivity|]); (split; [reflexivity|]);
    eexists; (split; [cbn; lia|]); (split; [reflexivity|]); eauto 6.
Qed.

Lemma compiler_diagnostic_last_witness :
  let res :=
    run (compiler_main world_no_tmp "/opt/cross/bin" "gcc" "cc")
        ∅ ["wrap"; "-v"] in
  st_trace res.2 !! 2%nat = Some (EvPerror "tuscan: compiler wrapper: fopen")
  /\ (S 2 = length (st_trace res.2)
      /\ res.1 = Exited 1
      /\ exists e : event,
           (1 <= 2)%nat
           /\ st_trace res.2 !! (2 - 1)%nat = Some e
           /\ compiler_diagnostic e "tuscan: compiler wrapper: fopen").
Proof.
  cbv zeta. split; [vm_compute; reflexivity|].
  apply (compiler_diagnostic_last world_no_tmp "/opt/cross/bin" "gcc" "cc"
           ∅ ["wrap"; "-v"] 2 "tuscan: compiler wrapper: fopen").
  vm_compute. reflexivity.
Defined.

(** X4.  In both wrappers, a run that ends by an exit status or by the
    replacement of the image has released the scratch handle. *)
Theorem handle_released (w : world) (tb tp np : string) (template : cobj)
    (fs : gmap string string) (argv : list string) (res : outcome * state) :
  res = run (compiler_main w tb tp np) fs argv
  \/ res = run (tool_main_from w tb tp np template) fs argv ->
  res.1 <> Fault ->
  st_handle res.2 = None.
Proof.
  intros [-> | ->] Hout.
  - destruct (compiler_run_path w tb tp np fs argv)
      as [Hr Heq|r Hr Ho Heq|r Hr Ho Hf Heq|r data Hr Ho Hf Hc Heq
         |r data Hr Ho Hf Hc Ha Heq|r data Hr Ho Hf Hc Ha Heq];
      rewrite Heq in *; cbn [fst snd st_handle] in *;
      reflexivity || (destruct Hout; reflexivity).
  - destruct (tool_run_path w tb tp np template fs argv)
      as [Hp Heq|p Hp Hs Heq|t0 Hs Hq Heq|t0 name Hs Hq Hn Hf Heq
         |t0 name data Hs Hq Hn Hf Hc Heq
         |t0 name data Hs Hq Hn Hf Hc Ha Heq
         |t0 name data Hs Hq Hn Hf Hc Ha Heq];
      rewrite Heq in *; cbn [fst snd st_handle] in *;
      reflexivity || (destruct Hout; reflexivity).
Qed.

Lemma handle_released_witness :
  let res :=
    run (compiler_main world_close_fails "/opt/cross/bin" "gcc" "cc")
        ∅ ["wrap"; "-v"] in
  res.1 <> Fault /\ st_handle res.2 = None.
Proof.
  cbv zeta.
  assert ((run (compiler_main world_close_fails "/opt/cross/bin" "gcc" "cc")
               ∅ ["wrap"; "-v"]).1 <> Fault) as Hout.
  { vm_compute. discriminate. }
  split; [exact Hout|].
  apply (handle_released world_close_fails "/opt/cross/bin" "gcc" "cc"
           (string_literal "/tmp/tuscan-native-XXXXXX") ∅ ["wrap"; "-v"]).
  - left. reflexivity.
  - exact Hout.
Defined.

(** ** The record on disk *)







(** ** The argument vector *)

(** X7.  Lines 54-59 (42-46): the array is built without leaving its
    bounds exactly when there is at least one argument, and it is then
    the tool path followed by the caller's arguments after the first. *)
Theorem build_new_argv_defined_iff (tool : string) (argv : list string)
    (v : list slot) :
  build_new_argv tool argv = Some v
  <-> (1 <= length argv)%nat /\ v = forwarded tool argv.
Proof.
  split.
  - destruct argv as [|a0 rest].
    + rewrite build_new_argv_nil. discriminate.
    + rewrite build_new_argv_cons. intros [= <-].
      split; [simpl; lia|reflexivity].
  - intros [Hlen ->]. apply build_new_argv_total. exact Hlen.
Qed.

(** X8.  The array handed to [execv] determines the tool path and every
    argument after the first: nothing of them is lost or merged. *)
Theorem new_argv_determines_arguments (tool tool' : string)
    (argv argv' : list string) (v : list slot) :
  build_new_argv tool argv = Some v ->
  build_new_argv tool' argv' = Some v ->
  tool = tool' /\ tail argv = tail argv'.
Proof.
  destruct argv as [|a0 rest]; [rewrite build_new_argv_nil; discriminate|].
  destruct argv' as [|b0 rest']; [rewrite build_new_argv_nil; discriminate|].
  rewrite !build_new_argv_cons. unfold forwarded. cbn [tail].
  intros [= <-] [= -> Hrest]. split; [reflexivity|].
  assert (Inj (=) (=) (λ s : string, Stored (Ptr s))) as Hinj.
  { intros x y [= ->]. reflexivity. }
  symmetry. exact (inj (fmap _) _ _ Hrest).
Qed.

Lemma new_argv_determines_arguments_witness :
  let v := [Stored (Ptr "/opt/cross/bin/gcc"); Stored (Ptr "-c");
            Stored (Ptr "a b.c")] in
  build_new_argv "/opt/cross/bin/gcc" ["cc"; "-c"; "a b.c"] = Some v
  /\ build_new_argv "/opt/cross/bin/gcc" ["/usr/bin/cc"; "-c"; "a b.c"] = Some v
  /\ ("/opt/cross/bin/gcc" = "/opt/cross/bin/gcc"
      /\ tail ["cc"; "-c"; "a b.c"] = tail ["/usr/bin/cc"; "-c"; "a b.c"]).
Proof.
  cbv zeta. split; [reflexivity|]. split; [reflexivity|].
  apply (new_argv_determines_arguments "/opt/cross/bin/gcc"
           "/opt/cross/bin/gcc" ["cc"; "-c"; "a b.c"]
           ["/usr/bin/cc"; "-c"; "a b.c"]
           [Stored (Ptr "/opt/cross/bin/gcc"); Stored (Ptr "-c");
            Stored (Ptr "a b.c")]); reflexivity.
Defined.

(** X9.  The name under which a wrapper is invoked plays no part: two
    runs that differ only in the argument at position 0 end the same
    way, leave the same files and issue the same calls. *)
Theorem argv0_ignored (w : world) (tb tp np : string) (template : cobj)
    (fs : gmap string string) (a0 b0 : string) (rest : list string) :
  run (compiler_main w tb tp np) fs (a0 :: rest)
  = run (compiler_main w tb tp np) fs (b0 :: rest)
  /\ run (tool_main_from w tb tp np template) fs (a0 :: rest)
     = run (tool_main_from w tb tp np template) fs (b0 :: rest).
Proof.
  unfold run, compiler_main, tool_main_from. cbv zeta.
  rewrite !build_new_argv_cons. unfold forwarded. cbn [tail].
  split; reflexivity.
Qed.

(** X11.  In both wrappers an [execv] is the last call of the run:
    nothing is retried or reported after it. *)
Theorem execv_is_last (w : world) (tb tp np : string) (template : cobj)
    (fs : gmap string string) (argv : list string) (t : list event)
    (k : nat) (path : string) (args : list slot) (ok : bool) :
  t = st_trace (run (compiler_main w tb tp np) fs argv).2
  \/ t = st_trace (run (tool_main_from w tb tp np template) fs argv).2 ->
  t !! k = Some (EvExecv path args ok) ->
  S k = length t.
Proof.
  intros Ht Hk.
  assert (exists r, t = st_trace r.2
            /\ run_shape w (TOOLCHAIN_TOOL tb tp) (np +:+ newline) fs argv r)
    as (r & -> & Hshape).
  { destruct Ht as [-> | ->]; eexists; split; try reflexivity;
      [apply compiler_run_shape|apply tool_run_shape]. }
  destruct Hshape as [Hnone|t0 name data excl Hq Hfmt Hlen Hexcl ->].
  - rewrite Forall_lookup in Hnone. destruct (Hnone _ _ Hk). exact I.
  - cbn [snd st_trace] in *.
    apply lookup_app_Some in Hk as [Hk|[Hge Hk]].
    + apply quiet_no_execv in Hq. rewrite Forall_lookup in Hq.
      destruct (Hq _ _ Hk). exact I.
    + destruct (k - length t0)%nat as [|[|[|[|d]]]] eqn:Hd;
        try discriminate Hk.
      rewrite length_app. simpl. lia.
Qed.

Lemma execv_is_last_witness :
  let t :=
    st_trace (run (compiler_main world_exec_fails "/opt/cross/bin" "gcc" "cc")
                  ∅ ["wrap"; "-v"]).2 in
  t !! 4%nat
    = Some (EvExecv "/opt/cross/bin/gcc"
              [Stored (Ptr "/opt/cross/bin/gcc"); Stored (Ptr "-v")] false)
  /\ S 4 = length t.
Proof.
  cbv zeta. split; [vm_compute; reflexivity|].
  apply (execv_is_last world_exec_fails "/opt/cross/bin" "gcc" "cc"
           (string_literal "/tmp/tuscan-native-XXXXXX") ∅ ["wrap"; "-v"] _ 4
           "/opt/cross/bin/gcc"
           [Stored (Ptr "/opt/cross/bin/gcc"); Stored (Ptr "-v")] false).
  - left. reflexivity.
  - vm_compute. reflexivity.
Defined.

(** ** The scratch-file name, again *)

Lemma to_int_to_unsigned (z : Z) :
  Int32.to_int (Int32.to_unsigned z) = Int32.to_int z.
Proof.
  unfold Int32.to_int, Int32.to_unsigned, Int32.modulus.
  now rewrite Zmod_mod.
Qed.

(** [abs((int) a)] for a word [a], by the half it lies in. *)
Lemma abs_to_int_word (a : Z) :
  0 <= a < 2 ^ 32 ->
  Int32.abs (Int32.to_int a)
  = (if a <? 2 ^ 31 then a else if a =? 2 ^ 31 then - 2 ^ 31 else 2 ^ 32 - a).
Proof.
  intros Ha.
  assert (Int32.to_int a = if a <? 2 ^ 31 then a else a - 2 ^ 32) as ->.
  { unfold Int32.to_int, Int32.modulus. now rewrite (Z.mod_small a) by lia. }
  unfold Int32.abs.
  destruct (Z.ltb_spec a (2 ^ 31)) as [Hlow|Hhigh].
  - rewrite (proj2 (Z.ltb_ge a 0)) by lia.
    apply to_int_small. unfold Int32.INT_MIN, Int32.INT_MAX. lia.
  - rewrite (proj2 (Z.ltb_lt (a - 2 ^ 32) 0)) by lia.
    destruct (Z.eqb_spec a (2 ^ 31)) as [->|Hne].
    + vm_compute. reflexivity.
    + replace (- (a - 2 ^ 32)) with (2 ^ 32 - a) by lia.
      apply to_int_small. unfold Int32.INT_MIN, Int32.INT_MAX. lia.
Qed.

(** X12.  Line 40: two random words give the same scratch-file name
    exactly when they are equal or add up to 2^32, that is, when they
    are the same or opposite as [int]. *)
Theorem scratch_name_collisions (a b : Z) :
  0 <= a < 2 ^ 32 ->
  0 <= b < 2 ^ 32 ->
  f_name_of a = f_name_of b <-> a = b \/ a + b = 2 ^ 32.
Proof.
  intros Ha Hb. rewrite f_name_of_eq_iff.
  rewrite (abs_to_int_word a Ha), (abs_to_int_word b Hb).
  destruct (Z.ltb_spec a (2 ^ 31)), (Z.ltb_spec b (2 ^ 31)),
    (Z.eqb_spec a (2 ^ 31)), (Z.eqb_spec b (2 ^ 31)); lia.
Qed.

Lemma scratch_name_collisions_witness :
  0 <= 6 < 2 ^ 32
  /\ 0 <= 4294967290 < 2 ^ 32
  /\ (f_name_of 6 = f_name_of 4294967290
      <-> 6 = 4294967290 \/ 6 + 4294967290 = 2 ^ 32).
Proof.
  split; [lia|]. split; [lia|].
  apply (scratch_name_collisions 6 4294967290); lia.
Defined.

(** X13.  Line 40: the number in the scratch-file name is between 0 and
    2147483647, except for the one random word 2^31, for which [abs]
    returns -2147483648. *)
Theorem scratch_number_range (buf0 : Z) :
  (Int32.to_unsigned buf0 = 2 ^ 31
   /\ Int32.abs (Int32.to_int buf0) = Int32.INT_MIN)
  \/ (Int32.to_unsigned buf0 <> 2 ^ 31
      /\ 0 <= Int32.abs (Int32.to_int buf0) <= Int32.INT_MAX).
Proof.
  rewrite <- (to_int_to_unsigned buf0).
  assert (0 <= Int32.to_unsigned buf0 < 2 ^ 32) as Hu.
  { unfold Int32.to_unsigned, Int32.modulus. apply Z.mod_pos_bound. lia. }
  rewrite (abs_to_int_word _ Hu).
  unfold Int32.INT_MIN, Int32.INT_MAX.
  destruct (Z.ltb_spec (Int32.to_unsigned buf0) (2 ^ 31)),
    (Z.eqb_spec (Int32.to_unsigned buf0) (2 ^ 31)); lia.
Qed.

(** ** tool_wrapper.c, whatever object is passed to [mkstemp] *)

Lemma quiet_no_perror (t : list event) :
  Forall quiet t -> Forall (λ e, ~ is_perror e) t.
Proof.
  intros Hq. eapply Forall_impl; [exact Hq|].
  intros [] Hx; simpl in *; tauto.
Qed.

(** X14.  tool_wrapper.c returns 0 from [main] exactly when its last call
    is an [execv] that failed. *)
Theorem tool_exit_zero_iff (w : world) (tb tp np : string) (template : cobj)
    (fs : gmap string string) (argv : list string) :
  let res := run (tool_main_from w tb tp np template) fs argv in
  res.1 = Exited 0
  <-> exists (path : string) (args : list slot),
        last (st_trace res.2) = Some (EvExecv path args false).
Proof.
  cbv zeta.
  destruct (tool_run_path w tb tp np template fs argv)
    as [Hp ->|p Hp Hs ->|t0 Hs Hq ->|t0 name Hs Hq Hn Hf ->
       |t0 name data Hs Hq Hn Hf Hc ->
       |t0 name data Hs Hq Hn Hf Hc Ha ->
       |t0 name data Hs Hq Hn Hf Hc Ha ->];
    cbn [fst snd st_trace]; rewrite ?last_app; cbn [last].
  1-6: split; [intros [=]|intros (path & args & [=])].
  destruct (w_execv w); split;
    [intros [=]|intros (path & args & [=])|eauto|reflexivity].
Qed.

(** X15.  A run of tool_wrapper.c leaves the files as they were, or adds
    exactly one file that did not exist before; a file that exists when
    the wrapper starts is never changed. *)
Theorem tool_creates_new_file_only (w : world) (tb tp np : string)
    (template : cobj) (fs : gmap string string) (argv : list string) :
  let res := run (tool_main_from w tb tp np template) fs argv in
  (st_fs res.2 = fs
   \/ exists name x : string,
        fs !! name = None
        /\ st_fs res.2 = <[name := x]> fs
        /\ (x = ""
            \/ (format_noargs (np +:+ newline) = Some x /\ w_write w = true)))
  /\ forall n : string, is_Some (fs !! n) -> st_fs res.2 !! n = fs !! n.
Proof.
  cbv zeta.
  destruct (tool_run_path w tb tp np template fs argv)
    as [Hp ->|p Hp Hs ->|t0 Hs Hq ->|t0 name Hs Hq Hn Hf ->
       |t0 name data Hs Hq Hn Hf Hc ->
       |t0 name data Hs Hq Hn Hf Hc Ha ->
       |t0 name data Hs Hq Hn Hf Hc Ha ->];
    cbn [snd st_fs].
  1-3: split; [left; reflexivity|reflexivity].
  all: split;
    [right|
     intros n [y Hy]; apply lookup_insert_ne; intros ->; congruence].
  - exists name, "". eauto.
  - exists name, (if w_write w then data else "").
    destruct (w_write w); eauto 10.
  - exists name, (if w_write w then data else "").
    destruct (w_write w); eauto 10.
  - exists name, (if w_write w then data else "").
    destruct (w_write w); eauto 10.
Qed.

(** X16.  In a run of tool_wrapper.c a diagnostic is the last call of the
    run and [main] returns 1.  The message is "tuscan: mkstemp", and then
    no file was changed, or it is "tuscan: close", and then the call just
    before it is the failed [close]. *)
Theorem tool_diagnostic_last (w : world) (tb tp np : string) (template : cobj)
    (fs : gmap string string) (argv : list string) (k : nat) (msg : string) :
  let res := run (tool_main_from w tb tp np template) fs argv in
  st_trace res.2 !! k = Some (EvPerror msg) ->
  S k = length (st_trace res.2)
  /\ res.1 = Exited 1
  /\ ((msg = "tuscan: mkstemp" /\ st_fs res.2 = fs)
      \/ (msg = "tuscan: close"
          /\ exists name : string,
               (1 <= k)%nat
               /\ st_trace res.2 !! (k - 1)%nat = Some (EvClose name false))).
Proof.
  cbv zeta.
  destruct (tool_run_path w tb tp np template fs argv)
    as [Hp ->|p Hp Hs ->|t0 Hs Hq ->|t0 name Hs Hq Hn Hf ->
       |t0 name data Hs Hq Hn Hf Hc ->
       |t0 name data Hs Hq Hn Hf Hc Ha ->
       |t0 name data Hs Hq Hn Hf Hc Ha ->];
    cbn [fst snd st_trace st_fs]; intros Hk.
  1:{ destruct k as [|k]; [|discriminate Hk]. injection Hk as <-. auto. }
  1:{ discriminate Hk. }
  all: apply lookup_app_Some in Hk as [Hk|[Hge Hk]];
    [apply quiet_no_perror in Hq; rewrite Forall_lookup in Hq;
     destruct (Hq _ _ Hk); exact I|].
  all: destruct (k - length t0)%nat as [|[|[|[|d]]]] eqn:Hd;
    try discriminate Hk; injection Hk as <-.
  - rewrite length_app. simpl. split; [lia|]. auto.
  - rewrite length_app. simpl. split; [lia|]. split; [reflexivity|].
    right. split; [reflexivity|]. exists name. split; [lia|].
    rewrite lookup_app_r by lia.
    replace (k - 1 - length t0)%nat with 2%nat by lia. reflexivity.
Qed.

Lemma tool_diagnostic_last_witness :
  let res :=
    run (tool_main_from world_close_fails "/opt/cross/bin" "ld" "ld"
           (char_array "/tmp/tuscan-native-XXXXXX"))
        ∅ ["ld"; "-r"] in
  st_trace res.2 !! 3%nat = Some (EvPerror "tuscan: close")
  /\ (S 3 = length (st_trace res.2)
      /\ res.1 = Exited 1
      /\ (("tuscan: close" = "tuscan: mkstemp" /\ st_fs res.2 = ∅)
          \/ ("tuscan: close" = "tuscan: close"
              /\ exists name : string,
                   (1 <= 3)%nat
                   /\ st_trace res.2 !! (3 - 1)%nat
                      = Some (EvClose name false)))).
Proof.
  cbv zeta. split; [vm_compute; reflexivity|].
  apply (tool_diagnostic_last world_close_fails "/opt/cross/bin" "ld" "ld"
           (char_array "/tmp/tuscan-native-XXXXXX") ∅ ["ld"; "-r"] 3
           "tuscan: close").
  vm_compute. reflexivity.
Defined.
